(** * SHL Assessment Recommender: catalog pipeline and recommendation engine

    A shallow embedding of [main.py]: the scraper's name resolution, the
    default substitution and the deduplication loop of
    [scrape_shl_assessments], the cache read of
    [fetch_shl_assessments_async], the reply parsing of
    [get_recommendations_async], the [refresh_assessments] endpoint and the
    [fix_assessment_names] repair task.

    External services (Firecrawl, requests, Gemini, the clock, the cache
    file) are inputs of the functions below: each call that can raise is an
    [option], each file state a value of [CacheFile].  Strings are ASCII
    strings; the clock counts whole seconds. *)

From Stdlib Require Import ZArith Ascii String NArith.
From stdpp Require Import base tactics option list sets gmap strings sorting.

Local Open Scope Z_scope.
#[local] Set Warnings "-clear-no-such-hyp".

(** ** Python string primitives (ASCII fragment) *)

Module Py.

Definition code (c : ascii) : N := N_of_ascii c.

Definition in_range (lo hi : N) (c : ascii) : bool :=
  ((lo <=? code c) && (code c <=? hi))%N.

(** [str.isspace] on one character, which is also the class [\s] of [re]:
    tab to carriage return, the four separators 0x1c-0x1f, and space. *)
Definition isspace (c : ascii) : bool :=
  in_range 9 13 c || in_range 28 31 c || (code c =? 32)%N.

Definition isupper (c : ascii) : bool := in_range 65 90 c.
Definition islower (c : ascii) : bool := in_range 97 122 c.
Definition isdigit (c : ascii) : bool := in_range 48 57 c.
Definition iscased (c : ascii) : bool := isupper c || islower c.

(** The class [\w] of [re]: letters, digits and the underscore. *)
Definition isword (c : ascii) : bool :=
  iscased c || isdigit c || (code c =? 95)%N.

Definition to_lower (c : ascii) : ascii :=
  if isupper c then ascii_of_N (code c + 32) else c.
Definition to_upper (c : ascii) : ascii :=
  if islower c then ascii_of_N (code c - 32) else c.

Definition is_empty (s : string) : bool :=
  match s with EmptyString => true | _ => false end.

(** [str.lower] *)
Fixpoint lower (s : string) : string :=
  match s with
  | EmptyString => EmptyString
  | String c r => String (to_lower c) (lower r)
  end.

(** [str.title]: a cased character is upper-cased when the character
    before it is not cased, and lower-cased when it is. *)
Fixpoint title_go (previous_is_cased : bool) (s : string) : string :=
  match s with
  | EmptyString => EmptyString
  | String c r =>
      String (if previous_is_cased then to_lower c else to_upper c)
             (title_go (iscased c) r)
  end.
Definition title (s : string) : string := title_go false s.

(** Removal of the leading, respectively trailing, characters that
    satisfy [p]. *)
Fixpoint lstrip_with (p : ascii → bool) (s : string) : string :=
  match s with
  | EmptyString => EmptyString
  | String c r => if p c then lstrip_with p r else s
  end.

Fixpoint rstrip_with (p : ascii → bool) (s : string) : string :=
  match s with
  | EmptyString => EmptyString
  | String c r =>
      let r' := rstrip_with p r in
      if is_empty r' && p c then EmptyString else String c r'
  end.

(** [str.strip()] and [str.rstrip(chars)] for a one-character [chars]. *)
Definition strip (s : string) : string :=
  lstrip_with isspace (rstrip_with isspace s).
Definition rstrip (ch : ascii) (s : string) : string :=
  rstrip_with (λ c, bool_decide (c = ch)) s.

(** [str.split(sep)] for a one-character separator: never the empty
    list, [''.split('/')] is [['']]. *)
Fixpoint split (sep : ascii) (s : string) : list string :=
  match s with
  | EmptyString => [EmptyString]
  | String c r =>
      if bool_decide (c = sep) then EmptyString :: split sep r
      else match split sep r with
           | p :: ps => String c p :: ps
           | [] => [String c EmptyString]
           end
  end.

(** [str.startswith] *)
Fixpoint startswith (s prefix : string) : bool :=
  match prefix, s with
  | EmptyString, _ => true
  | String _ _, EmptyString => false
  | String p ps, String c r => bool_decide (c = p) && startswith r ps
  end.

(** [str.endswith] *)
Definition endswith (s suffix : string) : bool :=
  startswith (String.rev s) (String.rev suffix).

(** [sub in s] *)
Fixpoint contains (sub s : string) : bool :=
  startswith s sub ||
  match s with
  | EmptyString => false
  | String _ r => contains sub r
  end.

(** [str.replace(old, new)] for a non-empty [old]: the occurrences are
    taken left to right and do not overlap.  [skip] counts the characters
    of a matched occurrence that are still to be dropped. *)
Fixpoint replace_go (old new : string) (skip : nat) (s : string) : string :=
  match s with
  | EmptyString => EmptyString
  | String c r =>
      match skip with
      | S k => replace_go old new k r
      | O =>
          if startswith s old
          then new +:+ replace_go old new (Nat.pred (String.length old)) r
          else String c (replace_go old new 0 r)
      end
  end.
Definition replace (old new s : string) : string := replace_go old new 0 s.

(** [re.findall(r'\d+', s)]: the maximal runs of digits, left to right.
    [cur] is the run being read, most recent digit first. *)
Fixpoint findall_digits_go (cur : option string) (s : string) : list string :=
  match s with
  | EmptyString => option_list (String.rev <$> cur)
  | String c r =>
      if isdigit c
      then findall_digits_go (Some (String c (default EmptyString cur))) r
      else option_list (String.rev <$> cur) ++ findall_digits_go None r
  end.
Definition findall_digits : string → list string := findall_digits_go None.

(** [int(s)] on a string of decimal digits.  [None] stands for the
    [ValueError] that [int] raises on any other character, on the empty
    string and, when [max_str_digits] is positive, on a string of more
    than [max_str_digits] characters: [sys.get_int_max_str_digits()] is
    4300 by default since Python 3.11, and 0 switches the limit off. *)
Definition digit_value (c : ascii) : option Z :=
  if isdigit c then Some (Z.of_N (code c) - 48) else None.

Fixpoint int_go (acc : Z) (s : string) : option Z :=
  match s with
  | EmptyString => Some acc
  | String c r =>
      match digit_value c with
      | Some d => int_go (10 * acc + d) r
      | None => None
      end
  end.
Definition int (max_str_digits : nat) (s : string) : option Z :=
  if is_empty s then None
  else if (0 <? max_str_digits)%nat && (max_str_digits <? String.length s)%nat
       then None
       else int_go 0 s.

(** [re.sub(r'[^\w\s]', ' ', s)] *)
Fixpoint sub_nonword (s : string) : string :=
  match s with
  | EmptyString => EmptyString
  | String c r =>
      String (if isword c || isspace c then c else " "%char) (sub_nonword r)
  end.

(** [re.sub(r'\s+', ' ', s)]: every maximal run of whitespace becomes one
    space. *)
Fixpoint sub_spaces_go (in_run : bool) (s : string) : string :=
  match s with
  | EmptyString => EmptyString
  | String c r =>
      if isspace c
      then (if in_run then sub_spaces_go true r
            else String " "%char (sub_spaces_go true r))
      else String c (sub_spaces_go false r)
  end.
Definition sub_spaces : string → string := sub_spaces_go false.

(** Strings made of decimal digits only, and strings with none. *)
Fixpoint all_digits (s : string) : bool :=
  match s with
  | EmptyString => true
  | String c r => isdigit c && all_digits r
  end.

Fixpoint no_digit (s : string) : bool :=
  match s with
  | EmptyString => true
  | String c r => negb (isdigit c) && no_digit r
  end.

End Py.


(** ** List helper *)

(** The distinct elements of a list, each at its first occurrence. *)
Fixpoint first_occurrences {A} `{EqDecision A} (l : list A) : list A :=
  match l with
  | [] => []
  | x :: r => x :: filter (λ y, y ≠ x) (first_occurrences r)
  end.

(** ** Data model *)

(** The six keys of an assessment dictionary, which are also the fields of
    the response model [Assessment]. *)
Record Assessment := mkAssessment {
  name : string;
  url : string;
  remote_testing : bool;
  adaptive_support : bool;
  duration : string;
  test_type : string
}.

Global Instance Assessment_eq_dec : EqDecision Assessment.
Proof. solve_decision. Defined.

(** [assessment["name"] = n] *)
Definition set_name (n : string) (a : Assessment) : Assessment :=
  mkAssessment n (url a) (remote_testing a) (adaptive_support a)
               (duration a) (test_type a).

(** The attributes parsed from the oracle's JSON reply; a key may be
    missing.  A key that is present is taken to hold a value of the JSON
    type the prompt asks for. *)
Record Details := mkDetails {
  d_remote_testing : option bool;
  d_adaptive_support : option bool;
  d_duration : option string;
  d_test_type : option string
}.

(** What the outside world answers during one scrape.  [fetch_page url] is
    [None] when the iteration for [url] ends in the [except] of its [try]
    (both acquisitions failed, or the oracle call raised); otherwise it
    carries the page title ([None] when there is none) and the attributes
    ([None] when the reply holds no JSON object or it does not parse). *)
Record Services := mkServices {
  firecrawl_links : option (list string);
  html_links : option (list string);
  fetch_page : string → option (option string * option Details)
}.

Definition PRODUCTS_URL : string := "https://www.shl.com/solutions/products/".

(** ** URL discovery ([scrape_shl_assessments], first [try] block) *)

Definition is_product_link (link : string) : bool :=
  Py.contains "/products/" link && negb (Py.endswith link "/products/").

Definition add_firecrawl_link (shl_urls : list string) (link : string)
  : list string :=
  if Py.contains "products" link && negb (bool_decide (link ∈ shl_urls))
  then (if is_product_link link then shl_urls ++ [link] else shl_urls)
  else shl_urls.

Definition add_html_link (shl_urls : list string) (link : string)
  : list string :=
  if is_product_link link && negb (bool_decide (link ∈ shl_urls))
  then shl_urls ++ [if negb (Py.startswith link "http")
                    then "https://www.shl.com" +:+ link else link]
  else shl_urls.

Definition discover_urls (w : Services) : list string :=
  match firecrawl_links w with
  | Some links => foldl add_firecrawl_link [PRODUCTS_URL] links
  | None =>
      match html_links w with
      | Some links => foldl add_html_link [PRODUCTS_URL] links
      | None => [PRODUCTS_URL]
      end
  end.

(** ** Name resolution *)

(** Python truthiness of a name that may be [None]. *)
Definition truthy (n : option string) : bool :=
  match n with
  | Some s => negb (Py.is_empty s)
  | None => false
  end.

Definition strip_site_suffix (page_title : string) : string :=
  Py.strip (Py.replace "SHL" "" (Py.replace "SHL |" ""
    (Py.replace " | SHL" "" page_title))).

(** [part.replace("-", " ").replace("%20", " ").strip().title()] *)
Definition slug_to_name (part : string) : string :=
  Py.title (Py.strip (Py.replace "%20" " " (Py.replace "-" " " part))).

(** [url.rstrip('/').split('/')] *)
Definition url_parts (u : string) : list string :=
  Py.split "/" (Py.rstrip "/" u).

(** The [for part in reversed(url_parts)] loops: the first part, from the
    end, that passes the test [keep]. *)
Definition last_part (keep : string → bool) (u : string) : option string :=
  List.find keep (reverse (url_parts u)).

Definition is_segment (part : string) : bool :=
  negb (Py.is_empty part) && negb (bool_decide (part = "solutions"))
  && negb (bool_decide (part = "products")).

Definition generic_names : list string :=
  ["home"; "solutions"; "products"; "assessments"].

Definition is_generic (n : string) : bool :=
  bool_decide (Py.lower n ∈ generic_names).

(** The keyword table of the final fallback. *)
Definition keyword_name (u : string) : string :=
  let l := Py.lower u in
  if Py.contains "personality" l then "Personality Assessment"
  else if Py.contains "cognitive" l then "Cognitive Assessment"
  else if Py.contains "skills" l then "Skills Assessment"
  else if Py.contains "video-interviews" l then "Video Interview Assessment"
  else if Py.contains "360" l then "360 Feedback Assessment"
  else "SHL Assessment".

(** The three steps of the scraper, each on the [name] left by the one
    before. *)
Definition name_from_title (page_title : option string) : option string :=
  if truthy page_title then strip_site_suffix <$> page_title else None.

Definition name_from_url (u : string) (n : option string) : option string :=
  if truthy n then n
  else match last_part is_segment u with
       | Some part => Some (slug_to_name part)
       | None => n
       end.

Definition name_fallback (u : string) (n : option string) : string :=
  match n with
  | Some s => if Py.is_empty s || is_generic s then keyword_name u else s
  | None => keyword_name u
  end.

Definition resolve_name (page_title : option string) (u : string) : string :=
  name_fallback u (name_from_url u (name_from_title page_title)).

(** ** The scraper ([scrape_shl_assessments]) *)

(** The attributes substituted when the oracle's reply holds no JSON. *)
Definition default_details : Details :=
  mkDetails (Some true) (Some false) (Some "20-30 minutes") (Some "Assessment").

(** One iteration of [for url in shl_urls] that reaches
    [assessments.append]. *)
Definition make_assessment (u : string) (page_title : option string)
    (reply : option Details) : Assessment :=
  let assessment_details := default default_details reply in
  {| name := resolve_name page_title u;
     url := u;
     remote_testing := default true (d_remote_testing assessment_details);
     adaptive_support := default false (d_adaptive_support assessment_details);
     duration := default "20-30 minutes" (d_duration assessment_details);
     test_type := default "Assessment" (d_test_type assessment_details) |}.

(** The raw records: one per URL whose iteration did not raise. *)
Definition scrape_pages (w : Services) (shl_urls : list string)
  : list Assessment :=
  omap (λ u, (λ r : option string * option Details,
                make_assessment u r.1 r.2) <$> fetch_page w u) shl_urls.

Definition verify_interactive : Assessment :=
  {| name := "Verify Interactive";
     url := "https://www.shl.com/solutions/products/verify-interactive/";
     remote_testing := true;
     adaptive_support := true;
     duration := "10-15 minutes";
     test_type := "Cognitive ability" |}.

Definition opq : Assessment :=
  {| name := "Occupational Personality Questionnaire (OPQ)";
     url := "https://www.shl.com/solutions/products/opq-personality-test/";
     remote_testing := true;
     adaptive_support := false;
     duration := "25-40 minutes";
     test_type := "Personality assessment" |}.

Definition default_assessments : list Assessment := [verify_interactive; opq].

(** [if not assessments: assessments = [...]] *)
Definition or_defaults (assessments : list Assessment) : list Assessment :=
  match assessments with
  | [] => default_assessments
  | _ => assessments
  end.

(** [not assessment["name"] or assessment["name"] == "Unknown Product"] *)
Definition invalid_name (n : string) : bool :=
  Py.is_empty n || bool_decide (n = "Unknown Product").

(** The body of [if not assessment["name"] or ...] in the deduplication
    loop: a name from the URL, then the default built on the test type. *)
Definition ensure_valid_name (seen_urls : gset string) (a : Assessment)
  : Assessment :=
  if invalid_name (name a) then
    let a1 :=
      match last_part (λ part, is_segment part
                               && negb (bool_decide (part ∈ seen_urls))) (url a)
      with
      | Some part => set_name (slug_to_name part) a
      | None => a
      end in
    if invalid_name (name a1)
    then set_name ("SHL Assessment - " +:+ test_type a1) a1
    else a1
  else a.

(** One iteration of [for assessment in assessments] on the pair
    [(unique_assessments, seen_urls)]. *)
Definition dedup_step (st : list Assessment * gset string) (a : Assessment)
  : list Assessment * gset string :=
  if bool_decide (url a ∈ st.2) then st
  else (st.1 ++ [ensure_valid_name st.2 a], {[url a]} ∪ st.2).

(** The deduplication loop: [unique_assessments] after the last
    iteration. *)
Definition normalize (assessments : list Assessment) : list Assessment :=
  (foldl dedup_step ([], ∅) assessments).1.

(** The same loop as a recursion on the records that are still to be
    read, from a given [seen_urls]; [normalize_dedup_from] relates the
    two. *)
Fixpoint dedup_from (seen_urls : gset string) (l : list Assessment)
  : list Assessment :=
  match l with
  | [] => []
  | a :: rest =>
      if bool_decide (url a ∈ seen_urls) then dedup_from seen_urls rest
      else ensure_valid_name seen_urls a
           :: dedup_from ({[url a]} ∪ seen_urls) rest
  end.

Definition scrape_shl_assessments (w : Services) : list Assessment :=
  normalize (or_defaults (scrape_pages w (discover_urls w))).

(** ** The cache file and [fetch_shl_assessments_async] *)

Definition CACHE_EXPIRY : Z := 86400.

(** The dictionary stored in the cache file; [.get] supplies a default for
    a missing key. *)
Record CacheEnvelope := mkEnvelope {
  timestamp : option Z;
  assessments : option (list Assessment)
}.

(** The state of [CACHE_FILE]: absent, present but not loadable as an
    envelope (reading it raises), or holding an envelope. *)
Inductive CacheFile :=
  | NoFile
  | Corrupt
  | Stored (e : CacheEnvelope).

(** The first block of [fetch_shl_assessments_async]: [Some] is the
    [return] inside the [try], [None] is falling through to the scrape. *)
Definition read_cache (file : CacheFile) (current_time : Z)
  : option (list Assessment) :=
  match file with
  | NoFile => None
  | Corrupt => None
  | Stored cache_data =>
      if bool_decide (current_time - default 0 (timestamp cache_data) < CACHE_EXPIRY)
      then Some (default [] (assessments cache_data))
      else None
  end.

(** [time_read] is the clock at the freshness test and [time_write] the
    clock when the new envelope is built; [write_ok] tells whether writing
    the file succeeds (a failure is logged and ignored). *)
Definition fetch_shl_assessments_async (w : Services) (file : CacheFile)
    (time_read time_write : Z) (write_ok : bool)
  : list Assessment * CacheFile :=
  match read_cache file time_read with
  | Some cached => (cached, file)
  | None =>
      let fresh := scrape_shl_assessments w in
      (fresh,
       if write_ok then Stored (mkEnvelope (Some time_write) (Some fresh))
       else file)
  end.

(** ** The recommendation engine ([get_recommendations_async]) *)

Record HTTPException := mkHTTPException {
  status_code : Z;
  detail : string
}.

Inductive Response (A : Type) :=
  | Ok (a : A)
  | Raise (e : HTTPException).
Arguments Ok {A} a.
Arguments Raise {A} e.

(** What [model.generate_content(prompt)] does: it returns a text or
    raises. *)
Inductive OracleReply :=
  | OracleText (text : string)
  | OracleError (message : string).

(** [Assessment(name=assessment["name"], ...)]: a new object holding the
    six values. *)
Definition copy_assessment (assessment : Assessment) : Assessment :=
  {| name := name assessment;
     url := url assessment;
     remote_testing := remote_testing assessment;
     adaptive_support := adaptive_support assessment;
     duration := duration assessment;
     test_type := test_type assessment |}.

(** One iteration of [for id in unique_ids]. *)
Definition recommendation_for (assessments_data : list Assessment) (id : Z)
  : option Assessment :=
  if bool_decide (0 ≤ id < Z.of_nat (length assessments_data))
  then copy_assessment <$> assessments_data !! Z.to_nat id
  else None.

(** What the Python runtime decides: [set_list l] is [list(set(l))], whose
    order the language leaves open, and [max_str_digits] is the limit of
    [int] on the length of its argument. *)
Record Runtime := mkRuntime {
  set_list : list Z → list Z;
  max_str_digits : nat
}.

Section Engine.

Variable rt : Runtime.

(** Lines 485-511: from the reply text to the recommendations. *)
Definition select_recommendations (assessments_data : list Assessment)
    (ids_text : string) : Response (list Assessment) :=
  let ids := Py.findall_digits ids_text in
  match mapM (Py.int (max_str_digits rt)) ids with
  | None => Raise (mkHTTPException 500 "Failed to parse Gemini response")
  | Some ints =>
      let unique_ids := take 10 (set_list rt ints) in
      Ok (omap (recommendation_for assessments_data) unique_ids)
  end.

Definition recommend_with (assessments_data : list Assessment)
    (reply : OracleReply) : Response (list Assessment) :=
  match reply with
  | OracleError message =>
      Raise (mkHTTPException 500 ("AI model error: " +:+ message))
  | OracleText ids_text => select_recommendations assessments_data ids_text
  end.

(** The whole function: the catalog comes from
    [fetch_shl_assessments_async] and the oracle sees a prompt built from
    it. *)
Definition get_recommendations_async (w : Services) (file : CacheFile)
    (time_read time_write : Z) (write_ok : bool)
    (oracle : list Assessment → OracleReply)
  : Response (list Assessment) * CacheFile :=
  let fetched :=
    fetch_shl_assessments_async w file time_read time_write write_ok in
  (recommend_with fetched.1 (oracle fetched.1), fetched.2).

End Engine.

(** ** Two runtimes *)

(** Insertion order: each value at its first occurrence. *)
Definition insertion_order (l : list Z) : list Z := first_occurrences l.

(** CPython's hash table of Objects/setobject.c, for non-negative
    integers: open addressing over a power-of-two table, a short linear
    probe, then the perturbed recurrence; the table is rebuilt when it is
    three fifths full and is iterated in slot order. *)
Module CPython.

Definition PySet_MINSIZE : Z := 8.
Definition LINEAR_PROBES : Z := 9.
Definition PERTURB_SHIFT : Z := 5.

(** [hash(n)] for [0 <= n]. *)
Definition hash (key : Z) : Z := key mod (2 ^ 61 - 1).

Record PySet := mkPySet {
  table : list (option Z);
  mask : Z;
  fill : Z
}.

Definition empty : PySet :=
  mkPySet (replicate 8 None) (PySet_MINSIZE - 1) 0.

(** The [do ... while (probes--)] loop from slot [i]: the first slot
    that is unused ([false]) or holds a key accepted by [same]
    ([true]). *)
Fixpoint scan (tbl : list (option Z)) (same : Z → bool) (i : Z)
    (probes : nat) : option (Z * bool) :=
  match tbl !! Z.to_nat i with
  | None => None
  | Some None => Some (i, false)
  | Some (Some k) =>
      if same k then Some (i, true)
      else match probes with
           | O => None
           | S p => scan tbl same (i + 1) p
           end
  end.

(** The [while (1)] loop of [set_add_entry] and [set_insert_clean]. *)
Fixpoint find_slot (fuel : nat) (tbl : list (option Z)) (msk : Z)
    (same : Z → bool) (i perturb : Z) : option (Z * bool) :=
  match fuel with
  | O => None
  | S f =>
      let probes :=
        if bool_decide (i + LINEAR_PROBES ≤ msk) then Z.to_nat LINEAR_PROBES
        else O in
      match scan tbl same i probes with
      | Some r => Some r
      | None =>
          let perturb' := Z.shiftr perturb PERTURB_SHIFT in
          find_slot f tbl msk same (Z.land (i * 5 + 1 + perturb') msk) perturb'
      end
  end.

(** The probe from the slot of [hash key].  The recurrence visits every
    slot of the table once [perturb] has run out, which the fuel covers;
    the [None] of an exhausted fuel leaves the set as it is. *)
Definition probe (tbl : list (option Z)) (msk : Z) (same : Z → bool)
    (key : Z) : option (Z * bool) :=
  find_slot (length tbl + 64) tbl msk same (Z.land (hash key) msk) (hash key).

Definition set_insert_clean (msk : Z) (tbl : list (option Z)) (key : Z)
  : list (option Z) :=
  match probe tbl msk (λ _, false) key with
  | Some (i, _) => <[Z.to_nat i := Some key]> tbl
  | None => tbl
  end.

(** The smallest table size above [minused]. *)
Fixpoint grow (fuel : nat) (newsize minused : Z) : Z :=
  match fuel with
  | O => newsize
  | S f => if bool_decide (newsize ≤ minused) then grow f (2 * newsize) minused
           else newsize
  end.

Definition set_table_resize (so : PySet) (minused : Z) : PySet :=
  let newsize := grow 64 PySet_MINSIZE minused in
  let newmask := newsize - 1 in
  mkPySet (foldl (set_insert_clean newmask)
                 (replicate (Z.to_nat newsize) None)
                 (omap id (table so)))
          newmask (fill so).

Definition set_add_entry (so : PySet) (key : Z) : PySet :=
  match probe (table so) (mask so) (λ k, bool_decide (k = key)) key with
  | Some (i, false) =>
      let used := fill so + 1 in
      let so' := mkPySet (<[Z.to_nat i := Some key]> (table so)) (mask so) used in
      if bool_decide (used * 5 < mask so * 3) then so'
      else set_table_resize so'
             (if bool_decide (50000 < used) then used * 2 else used * 4)
  | _ => so
  end.

(** [list(set(l))] *)
Definition set_list (l : list Z) : list Z :=
  omap id (table (foldl set_add_entry empty l)).

End CPython.

Definition cpython : Runtime := mkRuntime CPython.set_list 4300.

Definition insertion_ordered : Runtime := mkRuntime insertion_order 0.

(** ** The repair task ([fix_assessment_names]) *)

(** [name or fallback] on a name that may be [None]. *)
Definition name_or (n : option string) (fallback : string) : option string :=
  if truthy n then n else Some fallback.

Definition is_repair_segment (part : string) : bool :=
  negb (Py.is_empty part)
  && negb (bool_decide (part ∈ [""; "solutions"; "products"; "assessments"; "view"])).

(** The slug with punctuation blanked and runs of whitespace collapsed. *)
Definition clean_slug_to_name (part : string) : string :=
  Py.title (Py.strip (Py.sub_spaces (Py.sub_nonword
    (Py.replace "%20" " " (Py.replace "-" " " part))))).

(** The name computed for a record whose name is the placeholder. *)
Definition repaired_name (a : Assessment) : string :=
  let u := url a in
  let l := Py.lower u in
  let from_url := clean_slug_to_name <$> last_part is_repair_segment u in
  let ruled :=
    if Py.contains "personality" l then name_or from_url "Personality Assessment"
    else if Py.contains "cognitive" l then name_or from_url "Cognitive Assessment"
    else if Py.contains "video-interview" l then name_or from_url "Video Interview"
    else if Py.contains "360" l then name_or from_url "360 Feedback Assessment"
    else from_url in
  default "" (name_or ruled ("SHL Assessment - " +:+ test_type a)).

(** One iteration of [for assessment in assessments]. *)
Definition fix_name (a : Assessment) : Assessment :=
  if bool_decide (name a = "Unknown Product")
  then set_name (repaired_name a) a
  else a.

(** The file after the task has run; [None] when loading the file
    raises. *)
Definition fix_assessment_names (file : CacheFile) : option CacheFile :=
  match file with
  | NoFile => Some NoFile
  | Corrupt => None
  | Stored cache_data =>
      Some (Stored (mkEnvelope (timestamp cache_data)
                               ((λ l : list Assessment, fix_name <$> l)
                                  <$> assessments cache_data)))
  end.

(** ** The refresh endpoint ([refresh_assessments]) *)

Inductive BackgroundTask := FixAssessmentNames.

Record RefreshOutcome := mkRefreshOutcome {
  count : nat;
  unnamed_count : nat;
  written : CacheFile;
  background_tasks : list BackgroundTask
}.

(** [sum(1 for assessment in assessments
         if assessment["name"] == "Unknown Product")] *)
Definition count_unnamed (l : list Assessment) : nat :=
  length (filter (λ a, name a = "Unknown Product") l).

(** The endpoint on a run in which the cache file can be written (a
    failing write is not caught and ends the request). *)
Definition refresh_assessments (w : Services) (file : CacheFile)
    (time_write : Z) : RefreshOutcome :=
  let scraped := scrape_shl_assessments w in
  let unnamed := count_unnamed scraped in
  {| count := length scraped;
     unnamed_count := unnamed;
     written := Stored (mkEnvelope (Some time_write) (Some scraped));
     background_tasks :=
       if bool_decide (0 < unnamed)%nat then [FixAssessmentNames] else [] |}.

(** ** The synchronous cache read ([fetch_shl_assessments]) *)

(** Its first block is the freshness test of the asynchronous version;
    without a usable cache it returns the two built-in records and neither
    scrapes nor writes. *)
Definition fetch_shl_assessments (file : CacheFile) (current_time : Z)
  : list Assessment :=
  match read_cache file current_time with
  | Some cached => cached
  | None => default_assessments
  end.

(** ** The recommendation endpoint ([recommend_assessments] of main.py) *)

(** The request body: the fields [text] and [url], each optional. *)
Record QueryInput := mkQueryInput {
  q_text : option string;
  q_url : option string
}.

(** What [requests.get(query.url)] and the parsing after it give: the
    page text, or an exception with its message. *)
Inductive PageText :=
  | PageReturned (text : string)
  | PageFailed (message : string).

(** The two ways of reading the page behind [query.url];
    [firecrawl_text u] is [None] when [scrape_async] raises. *)
Record QueryServices := mkQueryServices {
  firecrawl_text : string → option string;
  requests_text : string → PageText
}.

(** The endpoint up to the call of [get_recommendations_async]: the text
    the recommendation is made for. *)
Definition resolve_query (query : QueryInput) (p : QueryServices)
  : Response string :=
  if negb (truthy (q_text query)) && negb (truthy (q_url query))
  then Raise (mkHTTPException 400 "Either text or URL must be provided")
  else if truthy (q_url query) then
    let u := default "" (q_url query) in
    let query_text := default "" (firecrawl_text p u) in
    if Py.is_empty query_text then
      match requests_text p u with
      | PageReturned text => Ok text
      | PageFailed message =>
          Raise (mkHTTPException 400
                   ("Failed to fetch or parse URL: " +:+ message))
      end
    else Ok query_text
  else Ok (default "" (q_text query)).

(** The oracle's reply depends on the prompt, which holds the query text
    and the catalog. *)
Definition recommend_assessments (rt : Runtime) (query : QueryInput)
    (p : QueryServices) (w : Services) (file : CacheFile)
    (time_read time_write : Z) (write_ok : bool)
    (oracle : string → list Assessment → OracleReply)
  : Response (list Assessment) * CacheFile :=
  match resolve_query query p with
  | Raise e => (Raise e, file)
  | Ok query_text =>
      get_recommendations_async rt w file time_read time_write write_ok
        (oracle query_text)
  end.

(** ** The user interface ([recommend_assessments] of app.py) *)

(** The JSON body built from the two text boxes: a key is set only for a
    non-empty box. *)
Definition ui_request (text_input url_input : string) : QueryInput :=
  mkQueryInput (if Py.is_empty text_input then None else Some text_input)
               (if Py.is_empty url_input then None else Some url_input).

(** What [requests.post] followed by [raise_for_status] gives: the
    recommendations of a 200 response, or an exception with its
    message. *)
Inductive PostResult :=
  | PostOk (recommendations : list Assessment)
  | PostFailed (message : string).

(** [render] is the HTML table built from a non-empty list. *)
Definition ui_recommend_assessments (text_input url_input : string)
    (post : QueryInput → PostResult) (render : list Assessment → string)
  : string :=
  if Py.is_empty text_input && Py.is_empty url_input
  then "Please provide either a job description text or a URL."
  else match post (ui_request text_input url_input) with
       | PostFailed message => "Error: " +:+ message
       | PostOk [] =>
           "No relevant assessments found. Please try a more detailed job description."
       | PostOk recommendations => render recommendations
       end.

(** The HTTP layer between the two: an [HTTPException] becomes an error
    status, on which [raise_for_status] raises with the text
    [error_text e]. *)
Definition over_http (error_text : HTTPException → string)
    (r : Response (list Assessment)) : PostResult :=
  match r with
  | Ok recommendations => PostOk recommendations
  | Raise e => PostFailed (error_text e)
  end.

(** ** The tables of CPython's sets of keys below 8 *)

Global Instance PySet_eq_dec : EqDecision CPython.PySet.
Proof. solve_decision. Defined.

Definition small_keys : list Z := [0; 1; 2; 3; 4; 5; 6; 7].

(** A set of keys below 8 as eight booleans, the key [k] at position
    [k]. *)
Definition has_key (m : list bool) (k : Z) : bool :=
  default false (m !! Z.to_nat k).

Definition add_key (m : list bool) (k : Z) : list bool :=
  <[Z.to_nat k := true]> m.

Definition keys_of (m : list bool) : list Z :=
  filter (λ k, has_key m k = true) small_keys.

(** The table that holds exactly the keys of [m]: each key [k] in slot
    [k], in a table of 8 slots up to four keys and of 32 slots from the
    fifth on. *)
Definition table_of (m : list bool) : CPython.PySet :=
  let used := length (keys_of m) in
  let size := if bool_decide (used ≤ 4)%nat then 8%nat else 32%nat in
  CPython.mkPySet
    ((λ i, if has_key m i then Some i else None) <$> seqZ 0 (Z.of_nat size))
    (Z.of_nat size - 1) (Z.of_nat used).

(** All lists of [n] booleans. *)
Fixpoint masks (n : nat) : list (list bool) :=
  match n with
  | O => [[]]
  | S k => (cons true <$> masks k) ++ (cons false <$> masks k)
  end.

(** On every such table, adding a key below 8 gives the table of the
    larger set, and the iteration gives the keys in ascending order. *)
Definition tables_closed : bool :=
  forallb (λ m,
    bool_decide (omap id (CPython.table (table_of m)) = keys_of m)
    && forallb (λ k,
         bool_decide (CPython.set_add_entry (table_of m) k
                      = table_of (add_key m k)))
       small_keys)
    (masks 8).

(** ** A predicate on links *)

(** The two tests a link of the extraction service passes before it is
    appended to [shl_urls]. *)
Definition is_discovered (link : string) : bool :=
  Py.contains "products" link && is_product_link link.

(** ** A predicate on replies *)

(** No run of digits of the reply is longer than the limit of [int]. *)
Definition within_limit (max_str_digits : nat) (ids_text : string) : bool :=
  (max_str_digits =? 0)%nat
  || forallb (λ d, (String.length d <=? max_str_digits)%nat)
             (Py.findall_digits ids_text).

(** ** The selection as the specification words it *)

(** The specification's step 5, for comparison with
    [select_recommendations]: out-of-range indices are discarded first, the
    distinct indices are put in ascending order, and the first 10 are
    kept. *)
Definition ascending_unique_ids (n : nat) (ints : list Z) : list Z :=
  take 10 (merge_sort Z.le
    (first_occurrences (filter (λ i, 0 ≤ i < Z.of_nat n) ints))).

Definition ascending_recommendations (assessments_data : list Assessment)
    (ids_text : string) : list Assessment :=
  omap (recommendation_for assessments_data)
       (ascending_unique_ids (length assessments_data)
          (default [] (mapM (Py.int 0) (Py.findall_digits ids_text)))).

(** ** Sample inputs *)

Definition product (k : string) : Assessment :=
  {| name := "Product " +:+ k;
     url := "https://www.shl.com/solutions/products/p" +:+ k +:+ "/";
     remote_testing := true;
     adaptive_support := false;
     duration := "20-30 minutes";
     test_type := "Assessment" |}.

(** Services whose extraction service fails and whose listing page holds
    the same relative anchor twice. *)
Definition html_only : Services :=
  mkServices None
    (Some ["/solutions/products/opq/"; "/solutions/products/opq/";
           "https://www.shl.com/solutions/products/"])
    (λ _, Some (Some "OPQ | SHL", None)).

(** Raw records with a repeated url, an empty name and a placeholder
    name. *)
Definition duplicated_raw : list Assessment :=
  [product "1"; set_name "" (product "2"); set_name "Other" (product "1");
   set_name "Unknown Product" (product "3")].

(** An envelope written at second 1000, and one holding a placeholder
    name. *)
Definition stored_defaults : CacheEnvelope :=
  mkEnvelope (Some 1000) (Some default_assessments).

Definition stored_placeholder : CacheEnvelope :=
  mkEnvelope (Some 1000) (Some [set_name "Unknown Product" opq; verify_interactive]).

(** A run of [n] digits. *)
Fixpoint digits_run (n : nat) : string :=
  match n with
  | O => EmptyString
  | S k => String "7" (digits_run k)
  end.

(** A catalog of nine records, at the indices 0 to 8. *)
Definition nine_products : list Assessment :=
  product <$> ["0"; "1"; "2"; "3"; "4"; "5"; "6"; "7"; "8"].

(** A catalog of thirty records, at the indices 0 to 29. *)
Definition thirty_products : list Assessment :=
  product <$> ["0"; "1"; "2"; "3"; "4"; "5"; "6"; "7"; "8"; "9";
               "10"; "11"; "12"; "13"; "14"; "15"; "16"; "17"; "18"; "19";
               "20"; "21"; "22"; "23"; "24"; "25"; "26"; "27"; "28"; "29"].


(** Services whose every page iteration fails. *)
Definition all_failing : Services :=
  mkServices (Some ["https://www.shl.com/solutions/products/opq/"]) None
             (λ _, None).

(** * Properties *)

(** ** The primitives on examples *)

Example title_ex : Py.title "verify interactive" = "Verify Interactive".
Proof. reflexivity. Qed.
Example title_ex2 : Py.title "oPQ 32r's" = "Opq 32R'S".
Proof. reflexivity. Qed.
Example split_ex :
  Py.split "/" (Py.rstrip "/" "https://www.shl.com/solutions/products/opq/")
  = ["https:"; ""; "www.shl.com"; "solutions"; "products"; "opq"].
Proof. reflexivity. Qed.
Example replace_ex :
  Py.strip (Py.replace "SHL" "" (Py.replace "SHL |" "" (Py.replace " | SHL" "" "OPQ | SHL")))
  = "OPQ".
Proof. reflexivity. Qed.
Example replace_overlap : Py.replace "aa" "b" "aaa" = "ba".
Proof. reflexivity. Qed.
Example findall_ex :
  Py.findall_digits "I recommend 0 and also 12, 7" = ["0"; "12"; "7"].
Proof. reflexivity. Qed.
Example int_ex : Py.int 4300 "0123" = Some 123.
Proof. reflexivity. Qed.
Example sub_ex : Py.strip (Py.sub_spaces (Py.sub_nonword " a.b  (c)_d ")) = "a b c _d".
Proof. reflexivity. Qed.
Example resolve_title :
  resolve_name (Some "Verify Interactive | SHL")
    "https://www.shl.com/solutions/products/verify-interactive/"
  = "Verify Interactive".
Proof. reflexivity. Qed.
Example resolve_url :
  resolve_name None "https://www.shl.com/solutions/products/opq-personality-test/"
  = "Opq Personality Test".
Proof. reflexivity. Qed.
Example resolve_seed :
  resolve_name (Some "SHL") PRODUCTS_URL = "Www.Shl.Com".
Proof. reflexivity. Qed.
Example set_list_cpython :
  CPython.set_list [100; 3; 17; 42; 8; 64; 5; 33; 21; 9; 2; 77]
  = [64; 33; 2; 3; 100; 5; 8; 9; 42; 77; 17; 21].
Proof. vm_compute. reflexivity. Qed.
Example set_list_insertion : insertion_order [3; 1; 3; 2; 1] = [3; 1; 2].
Proof. reflexivity. Qed.
Example repaired_name_ex :
  repaired_name (mkAssessment "Unknown Product"
    "https://www.shl.com/solutions/products/view/job-focused_assessments.v2/"
    true false "" "Skills")
  = "Job Focused_Assessments V2".
Proof. reflexivity. Qed.

(** ** Lists without repetition *)

Lemma filter_all {A} (P : A → Prop) `{∀ x, Decision (P x)} (l : list A) :
  Forall P l → filter P l = l.
Proof.
  induction 1 as [|x l Hx Hl IH]; [done|].
  rewrite filter_cons_True by done. by rewrite IH.
Qed.

Section FirstOccurrences.
Context {A : Type} {eq_dec : EqDecision A}.
Implicit Types l : list A.

Lemma elem_of_first_occurrences l x : x ∈ first_occurrences l ↔ x ∈ l.
Proof.
  induction l as [|y l IH]; simpl; [done|].
  rewrite !elem_of_cons, list_elem_of_filter, IH.
  destruct (decide (x = y)); tauto.
Qed.

Lemma NoDup_first_occurrences l : NoDup (first_occurrences l).
Proof.
  induction l as [|y l IH]; simpl; [constructor|].
  apply NoDup_cons. split.
  - rewrite list_elem_of_filter. tauto.
  - by apply NoDup_filter.
Qed.

Lemma first_occurrences_NoDup l : NoDup l → first_occurrences l = l.
Proof.
  induction 1 as [|y l Hy Hl IH]; simpl; [done|].
  rewrite IH. f_equal.
  apply filter_all, Forall_forall. by intros z Hz ->.
Qed.

Lemma first_occurrences_idemp l :
  first_occurrences (first_occurrences l) = first_occurrences l.
Proof. apply first_occurrences_NoDup, NoDup_first_occurrences. Qed.

End FirstOccurrences.

(** ** The deduplication loop *)

Lemma set_name_fields n a :
  name (set_name n a) = n ∧ url (set_name n a) = url a
  ∧ remote_testing (set_name n a) = remote_testing a
  ∧ adaptive_support (set_name n a) = adaptive_support a
  ∧ duration (set_name n a) = duration a
  ∧ test_type (set_name n a) = test_type a.
Proof. by destruct a. Qed.

Lemma set_name_same a : set_name (name a) a = a.
Proof. by destruct a. Qed.

Lemma set_name_twice n m a : set_name n (set_name m a) = set_name n a.
Proof. by destruct a. Qed.

(** The loop only ever writes the [name] key. *)
Lemma ensure_valid_name_set_name seen a :
  ensure_valid_name seen a = set_name (name (ensure_valid_name seen a)) a.
Proof.
  unfold ensure_valid_name.
  destruct (invalid_name (name a)); [|by rewrite set_name_same].
  destruct (last_part _ _); simpl;
    repeat match goal with |- context [if ?b then _ else _] => destruct b end;
    by destruct a.
Qed.

Lemma ensure_valid_name_url seen a : url (ensure_valid_name seen a) = url a.
Proof. rewrite ensure_valid_name_set_name. by destruct a. Qed.

Lemma default_name_valid t : invalid_name ("SHL Assessment - " +:+ t) = false.
Proof. reflexivity. Qed.

Lemma ensure_valid_name_valid seen a :
  invalid_name (name (ensure_valid_name seen a)) = false.
Proof.
  unfold ensure_valid_name.
  destruct (invalid_name (name a)) eqn:Ha; [|done].
  match goal with |- context [if invalid_name (name ?x) then _ else _] =>
    destruct (invalid_name (name x)) eqn:Hx; [|done] end.
  apply default_name_valid.
Qed.

Lemma ensure_valid_name_id seen a :
  invalid_name (name a) = false → ensure_valid_name seen a = a.
Proof. unfold ensure_valid_name. by intros ->. Qed.

Lemma foldl_dedup_step st l :
  (foldl dedup_step st l).1 = st.1 ++ dedup_from st.2 l.
Proof.
  revert st. induction l as [|a l IH]; intros st; simpl.
  - by rewrite app_nil_r.
  - rewrite IH. unfold dedup_step. case_bool_decide; simpl; [done|].
    by rewrite <- app_assoc.
Qed.

Lemma normalize_dedup_from l : normalize l = dedup_from ∅ l.
Proof. unfold normalize. by rewrite foldl_dedup_step. Qed.

Lemma dedup_from_urls seen l :
  url <$> dedup_from seen l
  = filter (λ u, u ∉ seen) (first_occurrences (url <$> l)).
Proof.
  revert seen. induction l as [|a l IH]; intros seen; simpl; [done|].
  case_bool_decide as Ha.
  - rewrite filter_cons_False by tauto.
    rewrite list_filter_filter, IH. apply list_filter_iff.
    intros u. split; [|tauto]. intros Hu. split; [done|]. by intros ->.
  - rewrite filter_cons_True by done. simpl.
    rewrite ensure_valid_name_url, IH, list_filter_filter. f_equal.
    apply list_filter_iff. intros u. set_solver.
Qed.

Lemma dedup_from_first seen l r :
  r ∈ dedup_from seen l →
  ∃ i a, l !! i = Some a
         ∧ (url a ∉ seen)
         ∧ (url a ∉ url <$> take i l)
         ∧ r = ensure_valid_name (list_to_set (url <$> take i l) ∪ seen) a.
Proof.
  revert seen. induction l as [|a l IH]; intros seen; simpl; [by intros ?%elem_of_nil|].
  case_bool_decide as Ha.
  - intros (i & b & Hi & Hb & Hpre & ->)%IH.
    exists (S i), b. simpl. split_and!; [done|done| |].
    + rewrite not_elem_of_cons. split; [|done].
      intros Heq. by rewrite Heq in Hb.
    + f_equal. set_solver.
  - rewrite elem_of_cons. intros [->|(i & b & Hi & Hb & Hpre & ->)%IH].
    + exists O, a. simpl. split_and!; [done|done|set_solver|].
      f_equal. set_solver.
    + exists (S i), b. simpl. split_and!; [done|set_solver| |].
      * rewrite not_elem_of_cons. set_solver.
      * f_equal. set_solver.
Qed.

Lemma dedup_from_valid seen l :
  Forall (λ r, invalid_name (name r) = false) (dedup_from seen l).
Proof.
  revert seen. induction l as [|a l IH]; intros seen; simpl; [constructor|].
  case_bool_decide; [apply IH|].
  constructor; [apply ensure_valid_name_valid | apply IH].
Qed.

Lemma dedup_from_fixed seen l :
  NoDup (url <$> l) →
  Forall (λ r, invalid_name (name r) = false) l →
  (∀ u, u ∈ url <$> l → u ∉ seen) →
  dedup_from seen l = l.
Proof.
  revert seen. induction l as [|a l IH]; intros seen Hnd Hval Hseen; simpl; [done|].
  rewrite fmap_cons in Hnd. apply NoDup_cons in Hnd as [Ha Hnd].
  apply Forall_cons in Hval as [Hn Hval].
  rewrite bool_decide_eq_false_2 by (apply Hseen; set_solver).
  rewrite ensure_valid_name_id by done. f_equal.
  apply IH; [done|done|]. intros u Hu. specialize (Hseen u). set_solver.
Qed.

(** C2: the deduplicated catalog has no two records with the same [url];
    its urls are the distinct urls of the input in order of first
    occurrence, and each record kept is the input record at the first
    occurrence of its url, with no key but [name] ever written (and [name]
    only when it was empty or the placeholder). *)
Theorem normalize_unique_first (l : list Assessment) :
  NoDup (url <$> normalize l)
  ∧ url <$> normalize l = first_occurrences (url <$> l)
  ∧ ∀ r, r ∈ normalize l →
      ∃ i a, l !! i = Some a
             ∧ (url a ∉ url <$> take i l)
             ∧ r = ensure_valid_name (list_to_set (url <$> take i l)) a
             ∧ r = set_name (name r) a
             ∧ (invalid_name (name a) = false → r = a).
Proof.
  assert (Hurls : url <$> normalize l = first_occurrences (url <$> l)).
  { rewrite normalize_dedup_from, dedup_from_urls.
    apply filter_all, Forall_forall. intros u _. apply not_elem_of_empty. }
  split_and!.
  - rewrite Hurls. apply NoDup_first_occurrences.
  - done.
  - intros r Hr. rewrite normalize_dedup_from in Hr.
    apply dedup_from_first in Hr as (i & a & Hi & _ & Hpre & Hr).
    rewrite (right_id_L ∅ (∪)) in Hr.
    exists i, a. split_and!; [done|done|done| |].
    + rewrite Hr at 2. rewrite Hr at 1. apply ensure_valid_name_set_name.
    + intros Hval. rewrite Hr. by apply ensure_valid_name_id.
Qed.

Lemma normalize_unique_first_witness :
  normalize duplicated_raw
  = [product "1"; set_name "P2" (product "2"); set_name "P3" (product "3")]
  ∧ NoDup (url <$> normalize duplicated_raw)
  ∧ url <$> normalize duplicated_raw
    = first_occurrences (url <$> duplicated_raw).
Proof.
  split; [reflexivity|].
  destruct (normalize_unique_first duplicated_raw) as (Hnodup & Hurls & _).
  by split.
Defined.

(** C9: deduplicating the output of the deduplication gives the same
    sequence of records. *)
Theorem normalize_idempotent (l : list Assessment) :
  normalize (normalize l) = normalize l.
Proof.
  rewrite (normalize_dedup_from (normalize l)).
  apply dedup_from_fixed.
  - apply normalize_unique_first.
  - rewrite normalize_dedup_from. apply dedup_from_valid.
  - intros u _. apply not_elem_of_empty.
Qed.

Lemma invalid_name_false n :
  invalid_name n = false ↔ n ≠ "" ∧ n ≠ "Unknown Product".
Proof.
  unfold invalid_name. rewrite orb_false_iff, bool_decide_eq_false.
  destruct n; simpl; intuition congruence.
Qed.

Lemma normalize_valid (l : list Assessment) :
  Forall (λ r, name r ≠ "" ∧ name r ≠ "Unknown Product") (normalize l).
Proof.
  rewrite normalize_dedup_from.
  eapply Forall_impl; [apply dedup_from_valid|].
  intros r. apply invalid_name_false.
Qed.

Lemma count_unnamed_valid (l : list Assessment) :
  Forall (λ r, name r ≠ "" ∧ name r ≠ "Unknown Product") l →
  count_unnamed l = 0%nat.
Proof.
  unfold count_unnamed. induction 1 as [|r l [_ Hr] _ IH]; [done|].
  by rewrite filter_cons_False.
Qed.

(** C10: every record that leaves the scraper has a name that is neither
    empty nor the placeholder; so the refresh endpoint counts no unnamed
    record and adds no repair task. *)
Theorem refresh_never_schedules_repair (w : Services) (file : CacheFile)
    (time_write : Z) :
  Forall (λ r, name r ≠ "" ∧ name r ≠ "Unknown Product")
         (scrape_shl_assessments w)
  ∧ unnamed_count (refresh_assessments w file time_write) = 0%nat
  ∧ background_tasks (refresh_assessments w file time_write) = [].
Proof.
  assert (Hv := normalize_valid (or_defaults (scrape_pages w (discover_urls w)))).
  split_and!; [done| |]; unfold refresh_assessments; simpl;
    unfold scrape_shl_assessments; by rewrite count_unnamed_valid.
Qed.

(** ** The default substitution *)

Lemma scrape_pages_nil (w : Services) (urls : list string) :
  (∀ u, u ∈ urls → fetch_page w u = None) → scrape_pages w urls = [].
Proof.
  unfold scrape_pages. induction urls as [|u urls IH]; intros Hall; [done|].
  simpl. rewrite (Hall u) by set_solver. simpl. apply IH.
  intros v Hv. apply Hall. set_solver.
Qed.

Lemma normalize_nonempty (l : list Assessment) : l ≠ [] → normalize l ≠ [].
Proof.
  rewrite normalize_dedup_from. destruct l as [|a l]; [done|]. intros _.
  simpl. by rewrite bool_decide_eq_false_2 by apply not_elem_of_empty.
Qed.

Lemma scrape_nonempty (w : Services) : scrape_shl_assessments w ≠ [].
Proof.
  apply normalize_nonempty. unfold or_defaults.
  by destruct (scrape_pages _ _).
Qed.

(** C6: when the iteration of every discovered URL fails, so that no raw
    record is appended, the scraper returns exactly the two built-in
    records; and whatever the services answer, it never returns an empty
    catalog. *)
Theorem scrape_failed_gives_defaults (w : Services)
    (Hfailed : ∀ u, u ∈ discover_urls w → fetch_page w u = None) :
  scrape_pages w (discover_urls w) = []
  ∧ scrape_shl_assessments w = [verify_interactive; opq]
  ∧ ∀ w' : Services, scrape_shl_assessments w' ≠ [].
Proof.
  assert (Hraw := scrape_pages_nil w _ Hfailed).
  split_and!; [done| |apply scrape_nonempty].
  unfold scrape_shl_assessments. rewrite Hraw. reflexivity.
Qed.

Lemma scrape_failed_gives_defaults_witness :
  discover_urls all_failing
  = [PRODUCTS_URL; "https://www.shl.com/solutions/products/opq/"]
  ∧ scrape_shl_assessments all_failing = [verify_interactive; opq].
Proof.
  split; [reflexivity|].
  apply (scrape_failed_gives_defaults all_failing). intros u _. reflexivity.
Defined.

(** ** The cache *)

(** C5: with [t] the envelope's timestamp (0 when the key is missing), the
    cache read returns the stored records exactly when
    [now - t < 86400] and falls through to a fresh scrape exactly when
    [86400 <= now - t]; an absent or unreadable file always falls
    through. *)
Theorem read_cache_fresh_iff (cache_data : CacheEnvelope) (now : Z) :
  let t := default 0 (timestamp cache_data) in
  let records := default [] (assessments cache_data) in
  (read_cache (Stored cache_data) now = Some records ↔ now - t < 86400)
  ∧ (read_cache (Stored cache_data) now = None ↔ 86400 ≤ now - t)
  ∧ read_cache NoFile now = None
  ∧ read_cache Corrupt now = None
  ∧ ∀ (w : Services) (time_write : Z) (write_ok : bool),
      (now - t < 86400 →
         fetch_shl_assessments_async w (Stored cache_data) now time_write write_ok
         = (records, Stored cache_data))
      ∧ (86400 ≤ now - t →
           (fetch_shl_assessments_async w (Stored cache_data) now time_write
              write_ok).1 = scrape_shl_assessments w)
      ∧ (fetch_shl_assessments_async w NoFile now time_write write_ok).1
        = scrape_shl_assessments w
      ∧ (fetch_shl_assessments_async w Corrupt now time_write write_ok).1
        = scrape_shl_assessments w.
Proof.
  intros t records. unfold fetch_shl_assessments_async, read_cache.
  fold t. fold records. unfold CACHE_EXPIRY.
  split_and!; try done.
  - case_bool_decide; split; (done || lia || intros; congruence).
  - case_bool_decide; split; (done || lia || intros; congruence).
  - intros w time_write write_ok. split_and!; try done.
    + intros Hfresh. by rewrite bool_decide_eq_true_2.
    + intros Hstale. by rewrite bool_decide_eq_false_2 by lia.
Qed.

Lemma read_cache_fresh_iff_witness :
  read_cache (Stored stored_defaults) 87399 = Some default_assessments
  ∧ read_cache (Stored stored_defaults) 87400 = None.
Proof.
  split.
  - destruct (read_cache_fresh_iff stored_defaults 87399) as (Hfresh & _).
    apply Hfresh. simpl. lia.
  - destruct (read_cache_fresh_iff stored_defaults 87400) as (_ & Hstale & _).
    apply Hstale. simpl. lia.
Defined.

(** ** The repair task *)

Lemma fix_name_set_name a : fix_name a = set_name (name (fix_name a)) a.
Proof. unfold fix_name. case_bool_decide; by destruct a. Qed.

Lemma fix_name_other a : name a ≠ "Unknown Product" → fix_name a = a.
Proof. unfold fix_name. intros Hn. by rewrite bool_decide_eq_false_2. Qed.

(** C8: the repair is a no-op without a cache file; on an envelope it
    keeps the timestamp, keeps the number and the positions of the
    records, writes no key but [name], and leaves every record whose name
    is not "Unknown Product" as it was. *)
Theorem fix_assessment_names_frame :
  fix_assessment_names NoFile = Some NoFile
  ∧ ∀ cache_data : CacheEnvelope,
      ∃ repaired : CacheEnvelope,
        fix_assessment_names (Stored cache_data) = Some (Stored repaired)
        ∧ timestamp repaired = timestamp cache_data
        ∧ (assessments cache_data = None → assessments repaired = None)
        ∧ ∀ l, assessments cache_data = Some l →
            ∃ l', assessments repaired = Some l'
                  ∧ length l' = length l
                  ∧ ∀ i a, l !! i = Some a →
                      ∃ a', l' !! i = Some a'
                            ∧ a' = set_name (name a') a
                            ∧ (name a ≠ "Unknown Product" → a' = a)
                            ∧ (name a' ≠ name a → name a = "Unknown Product").
Proof.
  split; [done|]. intros cache_data. eexists. split; [reflexivity|]. simpl.
  split_and!; [done|by intros ->|].
  intros l ->. simpl. eexists. split; [reflexivity|].
  split; [by rewrite length_fmap|].
  intros i a Hi. exists (fix_name a).
  rewrite list_lookup_fmap, Hi. split_and!; [done|apply fix_name_set_name| |].
  - apply fix_name_other.
  - intros Hne. destruct (decide (name a = "Unknown Product")); [done|].
    by rewrite fix_name_other in Hne.
Qed.

Lemma fix_assessment_names_frame_witness :
  ∃ repaired,
    fix_assessment_names (Stored stored_placeholder) = Some (Stored repaired)
    ∧ timestamp repaired = Some 1000
    ∧ assessments repaired
      = Some [set_name "Opq Personality Test" opq; verify_interactive].
Proof.
  destruct (proj2 fix_assessment_names_frame stored_placeholder)
    as (repaired & Hfix & Htime & _).
  exists repaired. split; [exact Hfix|]. split; [exact Htime|].
  injection Hfix as <-. reflexivity.
Defined.

(** ** Parsing the oracle's reply *)

Lemma rev_app_all_digits s acc :
  Py.all_digits s = true → Py.all_digits acc = true →
  Py.all_digits (String.rev_app s acc) = true.
Proof.
  revert acc. induction s as [|c s IH]; intros acc Hs Hacc; simpl in *; [done|].
  apply andb_true_iff in Hs as [Hc Hs]. apply IH; [done|].
  simpl. by rewrite Hc.
Qed.

Lemma rev_app_nonempty s acc :
  (s ≠ "" ∨ acc ≠ "") → String.rev_app s acc ≠ "".
Proof.
  revert acc. induction s as [|c s IH]; intros acc Hne; simpl.
  - by destruct Hne.
  - apply IH. by right.
Qed.

(** Every match of [\d+] is a non-empty string of digits. *)
Lemma findall_digits_go_digits cur s :
  (∀ run, cur = Some run → run ≠ "" ∧ Py.all_digits run = true) →
  Forall (λ d, d ≠ "" ∧ Py.all_digits d = true) (Py.findall_digits_go cur s).
Proof.
  assert (Hflush : ∀ cur,
    (∀ run, cur = Some run → run ≠ "" ∧ Py.all_digits run = true) →
    Forall (λ d, d ≠ "" ∧ Py.all_digits d = true)
           (option_list (String.rev <$> cur))).
  { intros [run|] Hrun; simpl; [|constructor].
    destruct (Hrun run eq_refl) as [Hne Hd].
    repeat constructor.
    - apply rev_app_nonempty. by left.
    - by apply rev_app_all_digits. }
  revert cur. induction s as [|c s IH]; intros cur Hcur; simpl.
  - by apply Hflush.
  - destruct (Py.isdigit c) eqn:Hc.
    + apply IH. intros run [= <-]. split; [done|]. simpl. rewrite Hc. simpl.
      destruct cur as [run|]; simpl; [|done]. by apply Hcur.
    + apply Forall_app. split; [by apply Hflush|]. by apply IH.
Qed.

Lemma findall_digits_digits ids_text :
  Forall (λ d, d ≠ "" ∧ Py.all_digits d = true) (Py.findall_digits ids_text).
Proof. apply findall_digits_go_digits. by intros run [=]. Qed.

Lemma int_go_digits s acc : Py.all_digits s = true → is_Some (Py.int_go acc s).
Proof.
  revert acc. induction s as [|c s IH]; intros acc Hs; simpl in *; [by eexists|].
  apply andb_true_iff in Hs as [Hc Hs].
  unfold Py.digit_value. rewrite Hc. by apply IH.
Qed.

Lemma int_go_nonneg s acc n : 0 ≤ acc → Py.int_go acc s = Some n → 0 ≤ n.
Proof.
  revert acc. induction s as [|c s IH]; intros acc Hacc; simpl.
  - intros [= <-]. done.
  - unfold Py.digit_value. destruct (Py.isdigit c) eqn:Hc; [|done].
    apply IH. unfold Py.isdigit, Py.in_range in Hc.
    apply andb_true_iff in Hc as [Hlo _]. apply N.leb_le in Hlo. lia.
Qed.

(** On a match of [\d+], [int] raises exactly when the match is longer
    than a positive limit. *)
Lemma int_on_digits m d :
  d ≠ "" → Py.all_digits d = true →
  if (0 <? m)%nat && (m <? String.length d)%nat
  then Py.int m d = None
  else ∃ n, Py.int m d = Some n ∧ 0 ≤ n.
Proof.
  intros Hne Hd. unfold Py.int. destruct d as [|c d]; [done|].
  cbn [Py.is_empty].
  destruct ((0 <? m)%nat && (m <? String.length (String c d))%nat); [done|].
  destruct (int_go_digits (String c d) 0 Hd) as [n Hn].
  exists n. split; [done|]. by eapply int_go_nonneg.
Qed.

(** The conversion of the matches raises exactly when a run of digits is
    over the limit. *)
Lemma parse_within_limit m ids_text :
  if within_limit m ids_text
  then ∃ ints, mapM (Py.int m) (Py.findall_digits ids_text) = Some ints
               ∧ Forall (λ n, 0 ≤ n) ints
  else mapM (Py.int m) (Py.findall_digits ids_text) = None.
Proof.
  unfold within_limit.
  induction (findall_digits_digits ids_text) as [|d ds [Hne Hd] _ IH].
  { rewrite orb_true_r. by exists []. }
  pose proof (int_on_digits m d Hne Hd) as Hint.
  destruct (decide (m = 0%nat)) as [->|Hm].
  { simpl in *. destruct Hint as (n & Hn & Hpos), IH as (ns & Hns & Hall).
    exists (n :: ns). split; [|by constructor].
    csimpl. by rewrite Hn, Hns. }
  assert (Hz : (m =? 0)%nat = false) by by apply Nat.eqb_neq.
  assert (Hp : (0 <? m)%nat = true) by (apply Nat.ltb_lt; lia).
  rewrite Hz, Hp in *. simpl in *.
  rewrite Nat.leb_antisym.
  destruct (m <? String.length d)%nat; simpl.
  - csimpl. by rewrite Hint.
  - destruct Hint as (n & Hn & Hpos).
    destruct (forallb _ ds).
    + destruct IH as (ns & Hns & Hall).
      exists (n :: ns). split; [|by constructor].
      csimpl. by rewrite Hn, Hns.
    + csimpl. by rewrite Hn, IH.
Qed.

Lemma findall_no_digit_go s :
  Py.no_digit s = true → Py.findall_digits_go None s = [].
Proof.
  induction s as [|c s IH]; simpl; [done|].
  intros [Hc Hs]%andb_true_iff. apply negb_true_iff in Hc. rewrite Hc.
  simpl. by apply IH.
Qed.

Lemma copy_assessment_id a : copy_assessment a = a.
Proof. by destruct a. Qed.

Lemma recommendation_for_Some catalog id r :
  recommendation_for catalog id = Some r →
  0 ≤ id < Z.of_nat (length catalog) ∧ catalog !! Z.to_nat id = Some r.
Proof.
  unfold recommendation_for. case_bool_decide; [|done].
  destruct (catalog !! Z.to_nat id) as [a|]; simpl; [|done].
  intros [= <-]. by rewrite copy_assessment_id.
Qed.

Lemma length_omap_le {A B} (f : A → option B) (l : list A) :
  (length (omap f l) ≤ length l)%nat.
Proof. induction l as [|x l IH]; csimpl; [done|]. destruct (f x); csimpl; lia. Qed.

Lemma omap_recommendation_for catalog (l : list Z) :
  Forall2 (λ i r, catalog !! Z.to_nat i = Some r)
          (filter (λ i, 0 ≤ i < Z.of_nat (length catalog)) l)
          (omap (recommendation_for catalog) l).
Proof.
  induction l as [|i l IH]; csimpl; [constructor|].
  unfold recommendation_for at 1. rewrite filter_cons.
  destruct (decide (0 ≤ i < Z.of_nat (length catalog))) as [Hi|Hi].
  - rewrite bool_decide_eq_true_2 by done.
    destruct (lookup_lt_is_Some_2 catalog (Z.to_nat i)) as [a Ha]; [lia|].
    rewrite Ha. csimpl. constructor; [|done]. by rewrite copy_assessment_id.
  - by rewrite bool_decide_eq_false_2 by done.
Qed.

(** ** The recommendation engine *)

Section EngineFacts.
Variable rt : Runtime.

Lemma select_recommendations_parsed catalog ids_text ints :
  mapM (Py.int (max_str_digits rt)) (Py.findall_digits ids_text) = Some ints →
  select_recommendations rt catalog ids_text
  = Ok (omap (recommendation_for catalog) (take 10 (set_list rt ints))).
Proof. unfold select_recommendations. by intros ->. Qed.

Lemma select_recommendations_bounded catalog ids_text :
  match select_recommendations rt catalog ids_text with
  | Ok result =>
      within_limit (max_str_digits rt) ids_text = true
      ∧ (length result ≤ 10)%nat
      ∧ Forall (λ r, ∃ i, (i < length catalog)%nat ∧ catalog !! i = Some r)
               result
  | Raise e =>
      within_limit (max_str_digits rt) ids_text = false
      ∧ e = mkHTTPException 500 "Failed to parse Gemini response"
  end.
Proof.
  pose proof (parse_within_limit (max_str_digits rt) ids_text) as Hparse.
  unfold select_recommendations.
  destruct (within_limit _ _).
  - destruct Hparse as (ints & -> & _). split_and!; [done| |].
    + etrans; [apply length_omap_le|]. rewrite length_take. lia.
    + apply Forall_forall. intros r (id & _ & Hr)%list_elem_of_omap.
      apply recommendation_for_Some in Hr as [_ Hr].
      exists (Z.to_nat id). split; [|done]. by eapply lookup_lt_Some.
  - by rewrite Hparse.
Qed.

End EngineFacts.

(** C1: whatever the runtime, the catalog and the reply text, a result
    returned by the engine has at most 10 records, each of them the record
    at some index below [len(catalog)] of the catalog the request was built
    from.  The engine returns a result unless a run of digits of the reply
    is over the limit of [int], and the whole function raises only with
    status 500. *)
Theorem recommendations_bounded_from_catalog (rt : Runtime) :
  (∀ (catalog : list Assessment) (ids_text : string),
     match recommend_with rt catalog (OracleText ids_text) with
     | Ok result =>
         within_limit (max_str_digits rt) ids_text = true
         ∧ (length result ≤ 10)%nat
         ∧ Forall (λ r, ∃ i, (i < length catalog)%nat ∧ catalog !! i = Some r)
                  result
     | Raise e =>
         within_limit (max_str_digits rt) ids_text = false
         ∧ e = mkHTTPException 500 "Failed to parse Gemini response"
     end)
  ∧ ∀ (w : Services) (file : CacheFile) (time_read time_write : Z)
      (write_ok : bool) (oracle : list Assessment → OracleReply),
      let catalog :=
        (fetch_shl_assessments_async w file time_read time_write write_ok).1 in
      match (get_recommendations_async rt w file time_read time_write
               write_ok oracle).1 with
      | Ok result =>
          (length result ≤ 10)%nat
          ∧ Forall (λ r, ∃ i, (i < length catalog)%nat ∧ catalog !! i = Some r)
                   result
      | Raise e => status_code e = 500
      end.
Proof.
  split.
  - intros catalog ids_text. apply select_recommendations_bounded.
  - intros w file time_read time_write write_ok oracle catalog.
    unfold get_recommendations_async. simpl. fold catalog.
    destruct (oracle catalog) as [ids_text|message]; simpl; [|done].
    pose proof (select_recommendations_bounded rt catalog ids_text) as Hsel.
    destruct (select_recommendations rt catalog ids_text).
    + apply Hsel.
    + by destruct Hsel as [_ ->].
Qed.

(** C3 as stated fails: on a reply without any digit the engine returns
    the empty list and raises nothing. *)
Lemma no_digit_reply_is_not_an_error :
  Py.no_digit "No suitable assessment" = true
  ∧ recommend_with cpython default_assessments
      (OracleText "No suitable assessment") = Ok []
  ∧ ¬ ∃ e, recommend_with cpython default_assessments
             (OracleText "No suitable assessment") = Raise e.
Proof.
  split; [reflexivity|]. split; [reflexivity|]. by intros [e [=]].
Qed.

(** C3, amended: for every reply without a digit character the
    recommendation succeeds with the empty list; no parse error is
    raised. *)
Theorem no_digit_reply_gives_empty (rt : Runtime)
    (catalog : list Assessment) (ids_text : string)
    (Hempty : set_list rt [] = [])
    (Hnone : Py.no_digit ids_text = true) :
  recommend_with rt catalog (OracleText ids_text) = Ok [].
Proof.
  simpl. unfold select_recommendations, Py.findall_digits.
  rewrite findall_no_digit_go by done. simpl. by rewrite Hempty.
Qed.

Lemma no_digit_reply_gives_empty_witness :
  recommend_with cpython nine_products
    (OracleText "Sorry, nothing matches.") = Ok [].
Proof.
  apply (no_digit_reply_gives_empty cpython nine_products
           "Sorry, nothing matches."); reflexivity.
Defined.

(** The [except ValueError] branch is taken on a run of 4301 digits. *)
Example over_limit_reply_raises :
  recommend_with cpython nine_products (OracleText (digits_run 4301))
  = Raise (mkHTTPException 500 "Failed to parse Gemini response").
Proof. by vm_compute. Qed.

(** C4 as stated fails, under CPython's order and under insertion order
    alike: the reply "8 1" on a nine-record catalog gives the record at
    index 8 before the record at index 1; and a reply with twelve distinct
    integers loses the in-range indices 17 and 21 to the cut, which comes
    before the range test. *)
Lemma selection_is_not_ascending :
  select_recommendations cpython nine_products "8 1"
  = Ok [product "8"; product "1"]
  ∧ select_recommendations insertion_ordered nine_products "8 1"
    = Ok [product "8"; product "1"]
  ∧ ascending_recommendations nine_products "8 1" = [product "1"; product "8"]
  ∧ select_recommendations cpython thirty_products
      "100 3 17 42 8 64 5 33 21 9 2 77"
    = Ok (product <$> ["2"; "3"; "5"; "8"; "9"])
  ∧ ascending_recommendations thirty_products
      "100 3 17 42 8 64 5 33 21 9 2 77"
    = product <$> ["2"; "3"; "5"; "8"; "9"; "17"; "21"]
  ∧ ¬ (∀ catalog ids_text,
         select_recommendations cpython catalog ids_text
         = Ok (ascending_recommendations catalog ids_text)).
Proof.
  split_and!; [by vm_compute..|].
  intros Hclaim. specialize (Hclaim nine_products "8 1").
  vm_compute in Hclaim. discriminate Hclaim.
Qed.

Lemma scenario_parsed m :
  mapM (Py.int m) (Py.findall_digits "I recommend 0 and also 1") = Some [0; 1].
Proof. by destruct m as [|[|m]]. Qed.

(** C4, amended: the parsed integers are deduplicated, the set is cut to
    its first 10 elements in the runtime's iteration order, and only then
    are the indices outside [0, len(catalog)) discarded; the records appear
    in that order, one per kept index, and no in-range index is lost when
    the reply has at most 10 distinct integers.  For a two-record catalog
    and the reply "I recommend 0 and also 1" the result holds exactly the
    two records, and under CPython's order they come as index 0 then
    index 1. *)
Theorem selection_in_set_order (rt : Runtime)
    (catalog : list Assessment) (ids_text : string)
    (Hnodup : ∀ l, NoDup (set_list rt l))
    (Helem : ∀ l x, x ∈ set_list rt l ↔ x ∈ l) :
  (∀ ints,
     mapM (Py.int (max_str_digits rt)) (Py.findall_digits ids_text) = Some ints →
     ∃ kept result,
       kept = filter (λ i, 0 ≤ i < Z.of_nat (length catalog))
                     (take 10 (set_list rt ints))
       ∧ select_recommendations rt catalog ids_text = Ok result
       ∧ Forall2 (λ i r, catalog !! Z.to_nat i = Some r) kept result
       ∧ NoDup kept
       ∧ (∀ i, i ∈ kept → i ∈ ints ∧ 0 ≤ i < Z.of_nat (length catalog))
       ∧ ((length (set_list rt ints) ≤ 10)%nat →
          ∀ i, i ∈ ints → 0 ≤ i < Z.of_nat (length catalog) → i ∈ kept))
  ∧ (within_limit (max_str_digits rt) ids_text = true →
     ∃ ints,
       mapM (Py.int (max_str_digits rt)) (Py.findall_digits ids_text)
       = Some ints)
  ∧ (∀ a b, ∃ result,
       select_recommendations rt [a; b] "I recommend 0 and also 1" = Ok result
       ∧ result ≡ₚ [a; b])
  ∧ ∀ a b,
      select_recommendations cpython [a; b] "I recommend 0 and also 1"
      = Ok [a; b].
Proof.
  split_and!.
  - intros ints Hints.
    eexists _, _. split_and!; [reflexivity| | | | |].
    + by apply select_recommendations_parsed.
    + apply omap_recommendation_for.
    + apply NoDup_filter.
      eapply sublist_NoDup; [apply Hnodup|apply sublist_take].
    + intros i [Hi Hin]%list_elem_of_filter. split; [|done].
      apply Helem. by eapply subseteq_take.
    + intros Hfew i Hi Hrange. apply list_elem_of_filter. split; [done|].
      rewrite take_ge by done. by apply Helem.
  - intros Hlim.
    pose proof (parse_within_limit (max_str_digits rt) ids_text) as Hparse.
    rewrite Hlim in Hparse. destruct Hparse as (ints & Hints & _). by exists ints.
  - intros a b.
    assert (Hperm : set_list rt [0; 1] ≡ₚ [0; 1]).
    { apply NoDup_Permutation; [done| |apply Helem].
      repeat constructor; set_solver. }
    eexists. split.
    { apply select_recommendations_parsed, scenario_parsed. }
    rewrite take_ge by (rewrite (Permutation_length Hperm); simpl; lia).
    rewrite Hperm. csimpl. by rewrite !copy_assessment_id.
  - intros a b. by destruct a, b.
Qed.

Lemma insertion_order_NoDup (l : list Z) : NoDup (insertion_order l).
Proof. apply NoDup_first_occurrences. Qed.

Lemma insertion_order_elem (l : list Z) (x : Z) : x ∈ insertion_order l ↔ x ∈ l.
Proof. apply elem_of_first_occurrences. Qed.

Lemma selection_in_set_order_witness :
  (∀ l, NoDup (set_list insertion_ordered l))
  ∧ (∀ l x, x ∈ set_list insertion_ordered l ↔ x ∈ l)
  ∧ ∃ result,
      select_recommendations insertion_ordered default_assessments
        "I recommend 0 and also 1" = Ok result
      ∧ result ≡ₚ [verify_interactive; opq].
Proof.
  split; [apply insertion_order_NoDup|].
  split; [apply insertion_order_elem|].
  apply (selection_in_set_order insertion_ordered nine_products "8 1"
           insertion_order_NoDup insertion_order_elem).
Defined.

(** ** Name resolution *)

(** C7 as stated fails: a title that strips to the generic "Products"
    does not fall back to the URL segment "verify-interactive"; the name
    comes from the keyword table and its literal fallback. *)
Lemma generic_title_skips_url_segment :
  let page_title := "Products | SHL" in
  let u := "https://www.shl.com/solutions/products/verify-interactive/" in
  strip_site_suffix page_title = "Products"
  ∧ is_generic "Products" = true
  ∧ last_part is_segment u = Some "verify-interactive"
  ∧ slug_to_name "verify-interactive" = "Verify Interactive"
  ∧ resolve_name (Some page_title) u = "SHL Assessment"
  ∧ resolve_name (Some page_title) u ≠ "Verify Interactive".
Proof. by split_and!. Qed.

Lemma truthy_Some s : truthy (Some s) = negb (Py.is_empty s).
Proof. reflexivity. Qed.

Lemma is_empty_false s : Py.is_empty s = false ↔ s ≠ "".
Proof. by destruct s. Qed.

Lemma is_empty_true s : Py.is_empty s = true ↔ s = "".
Proof. by destruct s. Qed.

(** C7, amended: a title that strips to a non-empty, non-generic name is
    used; a title that strips to a generic name sends the resolution
    straight to the keyword table and the literal fallback, the URL segment
    is not consulted; only when there is no title, or it strips to the
    empty string, is the last non-empty URL part other than "solutions" and
    "products" used (hyphens and %20 to spaces, stripped, title-cased), and
    then only if the result is neither empty nor generic. *)
Theorem resolve_name_precedence (page_title : option string) (u : string) :
  (∀ t, page_title = Some t → t ≠ "" →
     strip_site_suffix t ≠ "" →
     (is_generic (strip_site_suffix t) = false →
        resolve_name page_title u = strip_site_suffix t)
     ∧ (is_generic (strip_site_suffix t) = true →
          resolve_name page_title u = keyword_name u))
  ∧ ((page_title = None ∨ page_title = Some ""
      ∨ ∃ t, page_title = Some t ∧ strip_site_suffix t = "") →
     resolve_name page_title u =
       match last_part is_segment u with
       | Some part =>
           if Py.is_empty (slug_to_name part) || is_generic (slug_to_name part)
           then keyword_name u else slug_to_name part
       | None => keyword_name u
       end).
Proof.
  unfold resolve_name, name_from_title, name_from_url. split.
  - intros t -> Ht Hs. rewrite truthy_Some.
    apply is_empty_false in Ht, Hs. rewrite Ht. simpl. rewrite Hs. simpl.
    rewrite Hs. simpl. split; by intros ->.
  - assert (Hurl : name_fallback u
              match last_part is_segment u with
              | Some part => Some (slug_to_name part)
              | None => None
              end
            = match last_part is_segment u with
              | Some part =>
                  if Py.is_empty (slug_to_name part)
                     || is_generic (slug_to_name part)
                  then keyword_name u else slug_to_name part
              | None => keyword_name u
              end) by by destruct (last_part is_segment u).
    intros [->|[->|(t & -> & Hs)]]; simpl; [done| |].
    + by destruct (last_part is_segment u).
    + destruct (Py.is_empty t); simpl; [done|]. rewrite Hs. simpl.
      by destruct (last_part is_segment u).
Qed.

Lemma resolve_name_precedence_witness :
  resolve_name (Some "Verify Interactive | SHL")
    "https://www.shl.com/solutions/products/verify-interactive/"
  = "Verify Interactive"
  ∧ resolve_name (Some "Assessments | SHL")
      "https://www.shl.com/solutions/products/opq-personality-test/"
    = "Personality Assessment"
  ∧ resolve_name None
      "https://www.shl.com/solutions/products/opq-personality-test/"
    = "Opq Personality Test".
Proof.
  split_and!.
  - destruct (resolve_name_precedence (Some "Verify Interactive | SHL")
                "https://www.shl.com/solutions/products/verify-interactive/")
      as [Htitle _].
    destruct (Htitle "Verify Interactive | SHL" eq_refl) as [Hused _];
      [done|done|].
    rewrite Hused; reflexivity.
  - destruct (resolve_name_precedence (Some "Assessments | SHL")
                "https://www.shl.com/solutions/products/opq-personality-test/")
      as [Htitle _].
    destruct (Htitle "Assessments | SHL" eq_refl) as [_ Hgeneric];
      [done|done|].
    rewrite Hgeneric; reflexivity.
  - destruct (resolve_name_precedence None
                "https://www.shl.com/solutions/products/opq-personality-test/")
      as [_ Hurl].
    rewrite Hurl; [reflexivity|by left].
Defined.

(** * Further properties of the code *)

(** ** Names given by the scraper *)

Lemma keyword_name_usable u :
  keyword_name u ≠ "" ∧ is_generic (keyword_name u) = false.
Proof.
  unfold keyword_name.
  repeat match goal with |- context [if ?b then _ else _] => destruct b end;
    by split.
Qed.

Lemma scrape_pages_elem w urls r :
  r ∈ scrape_pages w urls →
  url r ∈ urls
  ∧ ∃ page_title reply,
      fetch_page w (url r) = Some (page_title, reply)
      ∧ r = make_assessment (url r) page_title reply.
Proof.
  unfold scrape_pages. intros (u & Hu & Hr)%list_elem_of_omap.
  destruct (fetch_page w u) as [[page_title reply]|] eqn:Hfetch; [|done].
  simpl in Hr. injection Hr as <-. simpl. split; [done|].
  by exists page_title, reply.
Qed.

(** X1: every raw record built by the page loop has a name that is neither
    empty nor one of the generic words "home", "solutions", "products",
    "assessments" in any letter case, whatever the title and the URL. *)
Theorem scraped_names_never_generic (w : Services) (urls : list string) :
  (∀ page_title u,
     resolve_name page_title u ≠ ""
     ∧ is_generic (resolve_name page_title u) = false)
  ∧ Forall (λ r, name r ≠ "" ∧ is_generic (name r) = false)
           (scrape_pages w urls).
Proof.
  assert (Hres : ∀ page_title u,
    resolve_name page_title u ≠ ""
    ∧ is_generic (resolve_name page_title u) = false).
  { intros page_title u. unfold resolve_name, name_fallback.
    destruct (name_from_url u (name_from_title page_title)) as [s|];
      [|apply keyword_name_usable].
    destruct (Py.is_empty s || is_generic s) eqn:Hs; [apply keyword_name_usable|].
    apply orb_false_iff in Hs as [He Hg]. split; [|done]. by destruct s. }
  split; [done|].
  apply Forall_forall. intros r (_ & page_title & reply & _ & ->)%scrape_pages_elem.
  apply Hres.
Qed.

(** ** URL discovery *)

Lemma startswith_trans s q p :
  Py.startswith s q = true → Py.startswith q p = true →
  Py.startswith s p = true.
Proof.
  revert s q. induction p as [|c p IH]; intros s q Hsq Hqp; [by destruct s|].
  destruct q as [|d q]; [done|]. destruct s as [|e s]; [done|].
  simpl in *. apply andb_true_iff in Hsq as [Hed Hsq].
  apply andb_true_iff in Hqp as [Hdc Hqp].
  apply bool_decide_eq_true in Hed, Hdc. subst.
  rewrite bool_decide_eq_true_2 by done. simpl. by eapply IH.
Qed.

Lemma contains_tail sub c s :
  Py.contains sub s = true → Py.contains sub (String c s) = true.
Proof. intros Hs. simpl. rewrite Hs. apply orb_true_r. Qed.

Lemma contains_startswith sub s :
  Py.startswith s sub = true → Py.contains sub s = true.
Proof. intros Hs. destruct s; simpl in *; by rewrite Hs. Qed.

(** The outer test ['products' in link] of the extraction-service loop
    follows from the inner test ['/products/' in link]. *)
Lemma is_discovered_product_link link :
  is_discovered link = is_product_link link.
Proof.
  unfold is_discovered, is_product_link.
  destruct (Py.contains "/products/" link) eqn:Hc; simpl; [|apply andb_false_r].
  assert (Hp : Py.contains "products" link = true); [|by rewrite Hp].
  induction link as [|c link IH]; [done|].
  simpl in Hc. apply orb_true_iff in Hc as [Hstart|Htail].
  - apply andb_true_iff in Hstart as [_ Hstart].
    apply contains_tail, contains_startswith.
    by apply (startswith_trans _ "products/").
  - by apply contains_tail, IH.
Qed.

Lemma foldl_add_firecrawl_link acc links :
  foldl add_firecrawl_link acc links
  = acc ++ filter (λ u, u ∉ acc)
                  (first_occurrences (filter (λ l, is_discovered l = true) links)).
Proof.
  revert acc. induction links as [|l links IH]; intros acc; simpl.
  { by rewrite app_nil_r. }
  rewrite IH, filter_cons.
  destruct (decide (is_discovered l = true)) as [Hd|Hd].
  - pose proof Hd as Hd'. unfold is_discovered in Hd'.
    apply andb_true_iff in Hd' as [Hc Hp].
    unfold add_firecrawl_link. rewrite Hc, Hp. simpl.
    destruct (decide (l ∈ acc)) as [Hin|Hin].
    + rewrite bool_decide_eq_true_2 by done. simpl.
      rewrite filter_cons_False by tauto.
      rewrite list_filter_filter. f_equal. apply list_filter_iff.
      intros u. split; [|tauto]. intros Hu. split; [done|]. by intros ->.
    + rewrite bool_decide_eq_false_2 by done. simpl.
      rewrite filter_cons_True by done.
      rewrite <- app_assoc. simpl. do 2 f_equal.
      rewrite list_filter_filter. apply list_filter_iff.
      intros u. rewrite elem_of_app, list_elem_of_singleton. tauto.
  - assert (Hsame : add_firecrawl_link acc l = acc); [|by rewrite Hsame].
    unfold add_firecrawl_link. unfold is_discovered in Hd.
    destruct (Py.contains "products" l), (is_product_link l),
      (bool_decide (l ∈ acc)); simpl in *; done.
Qed.

(** X2: when the extraction service answers, the URLs to scrape are the
    seed page followed by the links that contain "/products/" without
    ending in it, each once, in order of first appearance; the outer test
    for "products" excludes nothing more. *)
Theorem discover_urls_firecrawl (w : Services) (links : list string)
    (Hlinks : firecrawl_links w = Some links) :
  discover_urls w
  = PRODUCTS_URL
    :: first_occurrences (filter (λ l, is_product_link l = true) links)
  ∧ NoDup (discover_urls w)
  ∧ ∀ u, u ∈ discover_urls w ↔
         u = PRODUCTS_URL ∨ (u ∈ links ∧ is_product_link u = true).
Proof.
  assert (Hseed : ∀ u, is_product_link u = true → u ≠ PRODUCTS_URL).
  { by intros u Hu ->. }
  assert (Heq : discover_urls w = PRODUCTS_URL
    :: first_occurrences (filter (λ l, is_product_link l = true) links)).
  { unfold discover_urls. rewrite Hlinks, foldl_add_firecrawl_link. simpl.
    f_equal.
    rewrite (list_filter_iff (λ l, is_discovered l = true)
               (λ l, is_product_link l = true))
      by (intros l; by rewrite is_discovered_product_link).
    apply filter_all, Forall_forall.
    intros u Hu. rewrite elem_of_first_occurrences, list_elem_of_filter in Hu.
    rewrite list_elem_of_singleton. apply Hseed, Hu. }
  split_and!; [done| |].
  - rewrite Heq. apply NoDup_cons. split; [|apply NoDup_first_occurrences].
    rewrite elem_of_first_occurrences, list_elem_of_filter.
    intros [Hd _]. by apply Hseed in Hd.
  - intros u. rewrite Heq, elem_of_cons, elem_of_first_occurrences,
      list_elem_of_filter. tauto.
Qed.

Lemma discover_urls_firecrawl_witness :
  discover_urls all_failing
  = [PRODUCTS_URL; "https://www.shl.com/solutions/products/opq/"]
  ∧ NoDup (discover_urls all_failing).
Proof.
  destruct (discover_urls_firecrawl all_failing
              ["https://www.shl.com/solutions/products/opq/"] eq_refl)
    as (Heq & Hnodup & _).
  split; [|done]. rewrite Heq. reflexivity.
Defined.

Lemma foldl_add_html_link_absolute acc links :
  Forall (λ u, Py.startswith u "http" = true) acc →
  Forall (λ u, Py.startswith u "http" = true) (foldl add_html_link acc links).
Proof.
  revert acc. induction links as [|l links IH]; intros acc Hacc; simpl; [done|].
  apply IH. unfold add_html_link.
  destruct (is_product_link l && negb (bool_decide (l ∈ acc))); [|done].
  apply Forall_app. split; [done|]. constructor; [|constructor].
  by destruct (Py.startswith l "http") eqn:Hl.
Qed.

(** X3: when the extraction service fails, every URL to scrape starts
    with "http", the anchors found in the page having been prefixed with
    the site's address where needed. *)
Theorem discover_urls_fallback_absolute (w : Services)
    (Hfailed : firecrawl_links w = None) :
  Forall (λ u, Py.startswith u "http" = true) (discover_urls w).
Proof.
  unfold discover_urls. rewrite Hfailed.
  destruct (html_links w) as [links|]; [|by repeat constructor].
  apply foldl_add_html_link_absolute. by repeat constructor.
Qed.

Lemma discover_urls_fallback_absolute_witness :
  discover_urls html_only
  = [PRODUCTS_URL; "https://www.shl.com/solutions/products/opq/";
     "https://www.shl.com/solutions/products/opq/"]
  ∧ Forall (λ u, Py.startswith u "http" = true) (discover_urls html_only).
Proof.
  split; [reflexivity|].
  apply (discover_urls_fallback_absolute html_only). reflexivity.
Defined.

(** ** The scraper as a whole *)

Lemma length_first_occurrences_le {A} `{EqDecision A} (l : list A) :
  (length (first_occurrences l) ≤ length l)%nat.
Proof.
  induction l as [|x l IH]; simpl; [done|].
  pose proof (length_filter (λ y, y ≠ x) (first_occurrences l)). lia.
Qed.

Lemma normalize_urls (l : list Assessment) :
  url <$> normalize l = first_occurrences (url <$> l).
Proof.
  rewrite normalize_dedup_from, dedup_from_urls.
  apply filter_all, Forall_forall. intros u _. apply not_elem_of_empty.
Qed.

Lemma normalize_elem (l : list Assessment) (r : Assessment) :
  r ∈ normalize l →
  ∃ i a, l !! i = Some a
         ∧ r = ensure_valid_name (list_to_set (url <$> take i l)) a.
Proof.
  rewrite normalize_dedup_from.
  intros (i & a & Hi & _ & _ & Hr)%dedup_from_first.
  rewrite (right_id_L ∅ (∪)) in Hr. by exists i, a.
Qed.

(** X4: the catalog returned by the scraper has pairwise distinct urls
    and no more records than there were URLs to scrape (or the two
    defaults); each record either belongs to a discovered URL whose page
    iteration succeeded, or is a built-in default returned because no
    iteration succeeded. *)
Theorem scrape_urls_discovered (w : Services) :
  NoDup (url <$> scrape_shl_assessments w)
  ∧ (length (scrape_shl_assessments w) ≤ max 2 (length (discover_urls w)))%nat
  ∧ ∀ r, r ∈ scrape_shl_assessments w →
      (url r ∈ discover_urls w ∧ is_Some (fetch_page w (url r)))
      ∨ (scrape_pages w (discover_urls w) = [] ∧ r ∈ default_assessments).
Proof.
  unfold scrape_shl_assessments. split_and!.
  - rewrite normalize_urls. apply NoDup_first_occurrences.
  - rewrite <- (length_fmap url), normalize_urls.
    etrans; [apply length_first_occurrences_le|]. rewrite length_fmap.
    pose proof (length_omap_le
      (λ u, (λ r : option string * option Details,
               make_assessment u r.1 r.2) <$> fetch_page w u)
      (discover_urls w)) as Hlen.
    fold (scrape_pages w (discover_urls w)) in Hlen.
    destruct (scrape_pages w (discover_urls w)); simpl in *; lia.
  - intros r (i & a & Hi & ->)%normalize_elem.
    rewrite ensure_valid_name_url.
    apply list_elem_of_lookup_2 in Hi.
    destruct (scrape_pages w (discover_urls w)) as [|a0 raw] eqn:Hraw.
    + right. split; [done|]. simpl in Hi.
      apply elem_of_cons in Hi as [->|Hi]; [set_solver|].
      apply list_elem_of_singleton in Hi as ->. set_solver.
    + left. simpl in Hi. rewrite <- Hraw in Hi.
      apply scrape_pages_elem in Hi as (Hu & page_title & reply & Hf & _).
      split; [done|]. by rewrite Hf.
Qed.

(** X5: a catalog whose urls are pairwise distinct and whose names are
    neither empty nor the placeholder passes the deduplication loop
    unchanged. *)
Theorem normalize_clean_catalog (l : list Assessment)
    (Hnodup : NoDup (url <$> l))
    (Hnames : Forall (λ r, name r ≠ "" ∧ name r ≠ "Unknown Product") l) :
  normalize l = l.
Proof.
  rewrite normalize_dedup_from. apply dedup_from_fixed; [done| |].
  - eapply Forall_impl; [exact Hnames|]. intros r. apply invalid_name_false.
  - intros u _. apply not_elem_of_empty.
Qed.

Lemma normalize_clean_catalog_witness : normalize nine_products = nine_products.
Proof.
  apply (normalize_clean_catalog nine_products).
  - refine (bool_decide_unpack _ _). by vm_compute.
  - repeat constructor; done.
Defined.

(** ** The membership test of the renaming step *)

Lemma split_no_sep sep s part :
  part ∈ Py.split sep s → Py.contains (String sep "") part = false.
Proof.
  revert part. induction s as [|c s IH]; intros part; simpl.
  - by intros ->%list_elem_of_singleton.
  - case_bool_decide as Hc.
    + intros [->|Hin]%elem_of_cons; [done|]. by apply IH.
    + destruct (Py.split sep s) as [|p ps] eqn:Hsplit.
      * intros ->%list_elem_of_singleton. simpl.
        by rewrite bool_decide_eq_false_2.
      * intros [->|Hin]%elem_of_cons.
        -- simpl. rewrite bool_decide_eq_false_2 by done. simpl.
           apply IH. by left.
        -- apply IH. by right.
Qed.

Lemma find_ext_elem {A} (f g : A → bool) (l : list A) :
  (∀ x, x ∈ l → f x = g x) → List.find f l = List.find g l.
Proof.
  induction l as [|x l IH]; intros Hfg; simpl; [done|].
  rewrite <- (Hfg x) by (by left). destruct (f x); [done|].
  apply IH. intros y Hy. apply Hfg. by right.
Qed.

Lemma ensure_valid_name_seen (seen : gset string) (a : Assessment) :
  (∀ u, u ∈ seen → Py.contains "/" u = true) →
  ensure_valid_name seen a = ensure_valid_name ∅ a.
Proof.
  intros Hseen. unfold ensure_valid_name, last_part.
  rewrite (find_ext_elem
    (λ part, is_segment part && negb (bool_decide (part ∈ seen)))
    (λ part, is_segment part && negb (bool_decide (part ∈ (∅ : gset string))))
    (reverse (url_parts (url a)))); [done|].
  intros part Hpart. rewrite elem_of_reverse in Hpart. f_equal.
  rewrite !bool_decide_eq_false_2; [done|apply not_elem_of_empty|].
  intros Hin%Hseen. apply split_no_sep in Hpart. congruence.
Qed.

(** X6: the test [part not in seen_urls] of the renaming step never
    excludes anything once the urls seen so far contain a slash: a part of
    a url split at slashes holds none.  On a catalog whose urls all contain
    a slash, the name given to a record therefore does not depend on the
    records before it. *)
Theorem rename_ignores_seen_urls (l : list Assessment)
    (Hslash : Forall (λ a, Py.contains "/" (url a) = true) l) :
  ∀ r, r ∈ normalize l →
    ∃ i a, l !! i = Some a ∧ r = ensure_valid_name ∅ a.
Proof.
  intros r (i & a & Hi & ->)%normalize_elem. exists i, a. split; [done|].
  apply ensure_valid_name_seen.
  intros u (b & -> & Hb)%elem_of_list_to_set%list_elem_of_fmap.
  apply (subseteq_take i l) in Hb.
  rewrite Forall_forall in Hslash. by apply Hslash.
Qed.

Lemma rename_ignores_seen_urls_witness :
  ∃ i a, duplicated_raw !! i = Some a
         ∧ set_name "P3" (product "3") = ensure_valid_name ∅ a.
Proof.
  apply (rename_ignores_seen_urls duplicated_raw).
  - repeat constructor.
  - refine (bool_decide_unpack _ _). by vm_compute.
Defined.

(** ** The cache across calls *)

Lemma scrape_all_failed (w : Services) :
  (∀ u, u ∈ discover_urls w → fetch_page w u = None) →
  scrape_shl_assessments w = default_assessments.
Proof.
  intros Hfailed. unfold scrape_shl_assessments.
  by rewrite scrape_pages_nil.
Qed.

(** X7: a call that finds the cache stale and writes the file makes the
    next call within 86400 seconds of the write return the same catalog,
    whatever the services would answer then, and leave the file alone. *)
Theorem fetch_after_fetch_uses_cache (w w' : Services) (file : CacheFile)
    (time_read time_write time_read' time_write' : Z) (write_ok' : bool)
    (Hstale : read_cache file time_read = None)
    (Hfresh : time_read' - time_write < 86400) :
  let first :=
    fetch_shl_assessments_async w file time_read time_write true in
  first.1 = scrape_shl_assessments w
  ∧ fetch_shl_assessments_async w' first.2 time_read' time_write' write_ok'
    = first.
Proof.
  unfold fetch_shl_assessments_async. rewrite Hstale. simpl.
  split; [done|]. unfold CACHE_EXPIRY.
  by rewrite bool_decide_eq_true_2.
Qed.

Lemma fetch_after_fetch_uses_cache_witness :
  fetch_shl_assessments_async html_only
    (fetch_shl_assessments_async all_failing NoFile 0 10 true).2 86409 86410 true
  = (default_assessments, Stored (mkEnvelope (Some 10) (Some default_assessments))).
Proof.
  destruct (fetch_after_fetch_uses_cache all_failing html_only NoFile
              0 10 86409 86410 true eq_refl) as [Hfirst ->]; [lia|].
  reflexivity.
Defined.



(** X9: when every page iteration fails, the synchronous read and the
    asynchronous fetch return the same catalog: the cached one while it is
    fresh, the two built-in records otherwise. *)
Theorem sync_fetch_matches_async (w : Services) (file : CacheFile)
    (current_time time_write : Z) (write_ok : bool)
    (Hfailed : ∀ u, u ∈ discover_urls w → fetch_page w u = None) :
  fetch_shl_assessments file current_time
  = (fetch_shl_assessments_async w file current_time time_write write_ok).1.
Proof.
  unfold fetch_shl_assessments, fetch_shl_assessments_async.
  destruct (read_cache file current_time); [done|]. simpl.
  by rewrite scrape_all_failed.
Qed.

Lemma sync_fetch_matches_async_witness :
  fetch_shl_assessments Corrupt 5
  = (fetch_shl_assessments_async all_failing Corrupt 5 6 false).1.
Proof.
  apply (sync_fetch_matches_async all_failing Corrupt 5 6 false).
  intros u _. reflexivity.
Defined.

(** X10: the refresh endpoint does not depend on the file it replaces;
    the envelope it writes is served, unchanged and without scraping, to
    every fetch within 86400 seconds, and [count] is the number of records
    served. *)
Theorem refresh_then_fetch (w w' : Services) (file : CacheFile)
    (time_write current_time time_write' : Z) (write_ok : bool)
    (Hfresh : current_time - time_write < 86400) :
  let refreshed := refresh_assessments w file time_write in
  refreshed = refresh_assessments w NoFile time_write
  ∧ fetch_shl_assessments_async w' (written refreshed) current_time
      time_write' write_ok
    = (scrape_shl_assessments w, written refreshed)
  ∧ fetch_shl_assessments (written refreshed) current_time
    = scrape_shl_assessments w
  ∧ count refreshed = length (scrape_shl_assessments w).
Proof.
  simpl. split; [done|].
  unfold fetch_shl_assessments, fetch_shl_assessments_async. simpl.
  unfold CACHE_EXPIRY. by rewrite bool_decide_eq_true_2.
Qed.

Lemma refresh_then_fetch_witness :
  fetch_shl_assessments
    (written (refresh_assessments all_failing Corrupt 100)) 86499
  = default_assessments.
Proof.
  destruct (refresh_then_fetch all_failing all_failing Corrupt 100 86499 0 true)
    as (_ & _ & -> & _); [lia|].
  reflexivity.
Defined.

(** ** The repair task across runs *)

Lemma repaired_name_set_name n a : repaired_name (set_name n a) = repaired_name a.
Proof. by destruct a. Qed.

Lemma name_or_truthy n fallback :
  fallback ≠ "" → truthy (name_or n fallback) = true.
Proof.
  intros Hne. unfold name_or. destruct (truthy n) eqn:Hn; [done|].
  simpl. by destruct fallback.
Qed.

Lemma repaired_name_nonempty a : repaired_name a ≠ "".
Proof.
  unfold repaired_name.
  match goal with |- default "" (name_or ?n ?f) ≠ "" =>
    pose proof (name_or_truthy n f) as Ht;
    destruct (name_or n f) as [s|] end.
  - simpl. intros ->. by specialize (Ht ltac:(done)).
  - by specialize (Ht ltac:(done)).
Qed.

Lemma fix_name_idemp a : fix_name (fix_name a) = fix_name a.
Proof.
  destruct (decide (name a = "Unknown Product")) as [Ha|Ha];
    [|rewrite (fix_name_other a Ha); by rewrite (fix_name_other a Ha)].
  assert (Hfix : fix_name a = set_name (repaired_name a) a).
  { unfold fix_name. by rewrite bool_decide_eq_true_2. }
  rewrite Hfix. unfold fix_name. case_bool_decide as Hr; [|done].
  by rewrite repaired_name_set_name, set_name_twice.
Qed.

(** X11: running the repair on the file it has produced changes nothing
    more; and the repair never gives a record an empty name. *)
Theorem fix_assessment_names_idempotent (file repaired : CacheFile)
    (Hrun : fix_assessment_names file = Some repaired) :
  fix_assessment_names repaired = Some repaired
  ∧ ∀ a, name (fix_name a) = "" → name a = "".
Proof.
  split.
  - destruct file as [| |cache_data]; simpl in Hrun; [by injection Hrun as <-|done|].
    injection Hrun as <-. simpl. do 3 f_equal.
    destruct (assessments cache_data) as [l|]; [|done]. simpl. f_equal.
    rewrite <- list_fmap_compose. apply list_fmap_ext.
    intros i a _. apply fix_name_idemp.
  - intros a. unfold fix_name. case_bool_decide as Ha; [|done].
    destruct a as [n u r ad d t]. simpl. intros Hempty.
    by destruct (repaired_name_nonempty (mkAssessment n u r ad d t)).
Qed.

Lemma fix_assessment_names_idempotent_witness :
  fix_assessment_names
    (Stored (mkEnvelope (Some 1000)
       (Some [set_name "Opq Personality Test" opq; verify_interactive])))
  = Some (Stored (mkEnvelope (Some 1000)
       (Some [set_name "Opq Personality Test" opq; verify_interactive]))).
Proof.
  apply (fix_assessment_names_idempotent (Stored stored_placeholder)).
  reflexivity.
Defined.

Lemma fix_name_valid_list (l : list Assessment) :
  Forall (λ r, name r ≠ "" ∧ name r ≠ "Unknown Product") l →
  fix_name <$> l = l.
Proof.
  induction 1 as [|a l [_ Ha] _ IH]; [done|].
  rewrite fmap_cons, IH. by rewrite fix_name_other.
Qed.

(** X12: the repair task run on the file written by the refresh endpoint
    rewrites it as it is: there is never a placeholder name for it to
    replace. *)
Theorem repair_after_refresh_is_noop (w : Services) (file : CacheFile)
    (time_write : Z) :
  fix_assessment_names (written (refresh_assessments w file time_write))
  = Some (written (refresh_assessments w file time_write)).
Proof.
  simpl. do 4 f_equal. apply fix_name_valid_list.
  unfold scrape_shl_assessments. apply normalize_valid.
Qed.

(** ** More on the recommendation engine *)

(** X13: on a catalog with pairwise distinct urls, and a runtime whose
    sets are iterated without repetition, no record is recommended twice,
    however often the reply names its index. *)
Theorem recommendations_distinct (rt : Runtime) (catalog : list Assessment)
    (ids_text : string) (result : list Assessment)
    (Hnodup : ∀ l, NoDup (set_list rt l))
    (Hcatalog : NoDup (url <$> catalog))
    (Hresult : select_recommendations rt catalog ids_text = Ok result) :
  NoDup (url <$> result).
Proof.
  unfold select_recommendations in Hresult.
  destruct (mapM _ _) as [ints|]; [|done]. injection Hresult as <-.
  pose proof (omap_recommendation_for catalog (take 10 (set_list rt ints)))
    as Hrec.
  set (kept := filter (λ i, 0 ≤ i < Z.of_nat (length catalog))
                      (take 10 (set_list rt ints))) in Hrec.
  assert (Hkept : NoDup kept).
  { apply NoDup_filter. eapply sublist_NoDup; [apply Hnodup|apply sublist_take]. }
  apply NoDup_alt. intros p q u Hp Hq.
  rewrite list_lookup_fmap in Hp, Hq.
  destruct (omap _ _ !! p) as [r1|] eqn:Hr1; [|done].
  destruct (omap _ _ !! q) as [r2|] eqn:Hr2; [|done].
  simpl in Hp, Hq. injection Hp as Hu1. injection Hq as Hu2.
  destruct (Forall2_lookup_r _ _ _ _ _ Hrec Hr1) as (i1 & Hi1 & Hc1).
  destruct (Forall2_lookup_r _ _ _ _ _ Hrec Hr2) as (i2 & Hi2 & Hc2).
  assert (Hsame : Z.to_nat i1 = Z.to_nat i2).
  { eapply (proj1 (NoDup_alt _) Hcatalog);
      rewrite list_lookup_fmap; [by rewrite Hc1|rewrite Hc2; simpl; congruence]. }
  assert (Hpos : ∀ i n, kept !! n = Some i → 0 ≤ i).
  { intros i n Hin. apply list_elem_of_lookup_2 in Hin.
    apply list_elem_of_filter in Hin. lia. }
  assert (i1 = i2) as ->.
  { apply Hpos in Hi1 as ?. apply Hpos in Hi2 as ?. lia. }
  by eapply (proj1 (NoDup_alt _) Hkept).
Qed.

Lemma recommendations_distinct_witness :
  NoDup (url <$> [product "8"; product "1"]).
Proof.
  apply (recommendations_distinct insertion_ordered nine_products
           "8 1 8 and 1 again" [product "8"; product "1"]).
  - apply insertion_order_NoDup.
  - refine (bool_decide_unpack _ _). by vm_compute.
  - by vm_compute.
Defined.

(** ** The endpoint and the user interface *)

(** X14: a request that carries a URL is answered from the page behind
    it; the [text] field sent along has no influence on the response or on
    the cache. *)
Theorem url_takes_precedence (rt : Runtime) (text1 text2 : option string)
    (u : string) (p : QueryServices) (w : Services) (file : CacheFile)
    (time_read time_write : Z) (write_ok : bool)
    (oracle : string → list Assessment → OracleReply)
    (Hurl : u ≠ "") :
  recommend_assessments rt (mkQueryInput text1 (Some u)) p w file
    time_read time_write write_ok oracle
  = recommend_assessments rt (mkQueryInput text2 (Some u)) p w file
      time_read time_write write_ok oracle.
Proof.
  unfold recommend_assessments, resolve_query. simpl.
  destruct u; [done|]. simpl. by rewrite !andb_false_r.
Qed.

Lemma url_takes_precedence_witness :
  recommend_assessments cpython
    (mkQueryInput (Some "Java developer") (Some "https://example.com/job"))
    (mkQueryServices (λ _, Some "Sales manager") (λ _, PageFailed "down"))
    all_failing NoFile 0 1 true (λ _ _, OracleText "1")
  = recommend_assessments cpython
      (mkQueryInput None (Some "https://example.com/job"))
      (mkQueryServices (λ _, Some "Sales manager") (λ _, PageFailed "down"))
      all_failing NoFile 0 1 true (λ _ _, OracleText "1").
Proof.
  by apply (url_takes_precedence cpython (Some "Java developer") None
              "https://example.com/job").
Defined.

(** X15: the endpoint answers with at most 10 records, or raises with
    status 400 or 500; a 400 is raised before the catalog is fetched and
    leaves the cache file as it was, and a request without text and
    without URL always gets one. *)
Theorem endpoint_outcomes (rt : Runtime) (query : QueryInput)
    (p : QueryServices) (w : Services) (file : CacheFile)
    (time_read time_write : Z) (write_ok : bool)
    (oracle : string → list Assessment → OracleReply) :
  let answer :=
    recommend_assessments rt query p w file time_read time_write write_ok
      oracle in
  match answer.1 with
  | Ok result => (length result ≤ 10)%nat
  | Raise e =>
      (status_code e = 400 ∧ answer.2 = file) ∨ status_code e = 500
  end
  ∧ (truthy (q_text query) = false → truthy (q_url query) = false →
     answer
     = (Raise (mkHTTPException 400 "Either text or URL must be provided"),
        file)).
Proof.
  simpl. split.
  - unfold recommend_assessments.
    destruct (resolve_query query p) as [query_text|e] eqn:Hq.
    + unfold get_recommendations_async. simpl.
      match goal with |- context [oracle query_text ?c] =>
        destruct (oracle query_text c) as [ids_text|message]; simpl;
        [pose proof (select_recommendations_bounded rt c ids_text) as Hsel;
         destruct (select_recommendations rt c ids_text) as [result|e]
        |by right] end.
      * apply Hsel.
      * right. by destruct Hsel as [_ ->].
    + simpl. left. split; [|done]. unfold resolve_query in Hq.
      repeat match type of Hq with
             | (if ?b then _ else _) = _ => destruct b
             | match ?x with _ => _ end = _ => destruct x
             end; by simplify_eq.
  - intros Ht Hu. unfold recommend_assessments, resolve_query.
    by rewrite Ht, Hu.
Qed.

(** X16: a request built by the user interface never meets the endpoint's
    missing-input error: the only 400 such a request can get is that of a
    URL whose page could not be fetched. *)
Theorem ui_request_has_input (text_input url_input : string)
    (p : QueryServices) (e : HTTPException)
    (Hgiven : Py.is_empty text_input && Py.is_empty url_input = false)
    (Hraised : resolve_query (ui_request text_input url_input) p = Raise e) :
  url_input ≠ ""
  ∧ ∃ message,
      requests_text p url_input = PageFailed message
      ∧ e = mkHTTPException 400 ("Failed to fetch or parse URL: " +:+ message).
Proof.
  unfold resolve_query, ui_request in Hraised. simpl in Hraised.
  destruct text_input as [|c text_input], url_input as [|d url_input];
    simpl in *; [done|..].
  - destruct (Py.is_empty (default "" (firecrawl_text p (String d url_input))));
      [|done].
    destruct (requests_text p (String d url_input)) as [text|message]; [done|].
    injection Hraised as <-. split; [done|]. by exists message.
  - done.
  - destruct (Py.is_empty (default "" (firecrawl_text p (String d url_input))));
      [|done].
    destruct (requests_text p (String d url_input)) as [text|message]; [done|].
    injection Hraised as <-. split; [done|]. by exists message.
Qed.

Lemma ui_request_has_input_witness :
  "https://example.com/job" ≠ ""
  ∧ ∃ message,
      PageFailed "404 Client Error" = PageFailed message
      ∧ mkHTTPException 400 "Failed to fetch or parse URL: 404 Client Error"
        = mkHTTPException 400 ("Failed to fetch or parse URL: " +:+ message).
Proof.
  apply (ui_request_has_input "" "https://example.com/job"
           (mkQueryServices (λ _, None) (λ _, PageFailed "404 Client Error"))
           (mkHTTPException 400 "Failed to fetch or parse URL: 404 Client Error"));
    reflexivity.
Defined.

(** X17: when the user gives a job description and the oracle's reply
    holds no digit, the user interface shows its "no relevant assessments"
    message, not an error. *)
Theorem ui_shows_no_results (rt : Runtime) (text_input : string)
    (p : QueryServices) (w : Services) (file : CacheFile)
    (time_read time_write : Z) (write_ok : bool)
    (oracle : string → list Assessment → OracleReply)
    (error_text : HTTPException → string)
    (render : list Assessment → string)
    (Htext : text_input ≠ "")
    (Hempty : set_list rt [] = [])
    (Hreply : ∀ catalog, ∃ ids_text,
        oracle text_input catalog = OracleText ids_text
        ∧ Py.no_digit ids_text = true) :
  ui_recommend_assessments text_input ""
    (λ query, over_http error_text
       (recommend_assessments rt query p w file time_read time_write
          write_ok oracle).1)
    render
  = "No relevant assessments found. Please try a more detailed job description.".
Proof.
  unfold ui_recommend_assessments, ui_request.
  destruct text_input as [|c text_input]; [done|]. simpl.
  unfold recommend_assessments, resolve_query. simpl.
  unfold get_recommendations_async. simpl.
  match goal with |- context [oracle ?q ?c] =>
    destruct (Hreply c) as (ids_text & -> & Hnone) end.
  simpl. unfold select_recommendations, Py.findall_digits.
  rewrite findall_no_digit_go by done. simpl. by rewrite Hempty.
Qed.

Lemma ui_shows_no_results_witness :
  ui_recommend_assessments "Java developer" ""
    (λ query, over_http (λ e, detail e)
       (recommend_assessments cpython query
          (mkQueryServices (λ _, None) (λ _, PageFailed "unused"))
          all_failing NoFile 0 1 true (λ _ _, OracleText "None of them.")).1)
    (λ _, "<table>")
  = "No relevant assessments found. Please try a more detailed job description.".
Proof.
  apply (ui_shows_no_results cpython "Java developer"); [done|reflexivity|].
  intros catalog. by exists "None of them.".
Defined.

(** ** CPython's order on small indices *)

Lemma masks_complete (n : nat) (m : list bool) : length m = n → m ∈ masks n.
Proof.
  revert m. induction n as [|n IH]; intros [|b m] Hlen; simplify_eq/=.
  - by left.
  - apply elem_of_app. destruct b; [left|right];
      apply list_elem_of_fmap; exists m; split; auto.
Qed.

Lemma small_keys_range (k : Z) : k ∈ small_keys ↔ 0 ≤ k < 8.
Proof.
  unfold small_keys. rewrite !elem_of_cons, elem_of_nil. lia.
Qed.

Lemma tables_closed_spec (m : list bool) :
  length m = 8%nat →
  omap id (CPython.table (table_of m)) = keys_of m
  ∧ ∀ k, 0 ≤ k < 8 →
      CPython.set_add_entry (table_of m) k = table_of (add_key m k).
Proof.
  intros Hm%masks_complete.
  assert (Hclosed : tables_closed = true) by by vm_compute.
  unfold tables_closed in Hclosed. rewrite forallb_forall in Hclosed.
  apply list_elem_of_In, Hclosed, andb_true_iff in Hm as [Hiter Hadd].
  split; [by apply bool_decide_eq_true in Hiter|].
  intros k Hk%small_keys_range. rewrite forallb_forall in Hadd.
  apply list_elem_of_In, Hadd in Hk. by apply bool_decide_eq_true in Hk.
Qed.

Lemma foldl_set_add_entry_small (l : list Z) (m : list bool) :
  length m = 8%nat → Forall (λ k, 0 ≤ k < 8) l →
  foldl CPython.set_add_entry (table_of m) l = table_of (foldl add_key m l).
Proof.
  revert m. induction l as [|k l IH]; intros m Hm Hl; simpl; [done|].
  apply Forall_cons in Hl as [Hk Hl].
  rewrite (proj2 (tables_closed_spec m Hm) k Hk).
  apply IH; [|done]. unfold add_key. by rewrite length_insert.
Qed.

Lemma has_key_foldl_add_key (l : list Z) (m : list bool) (k : Z) :
  length m = 8%nat → Forall (λ k, 0 ≤ k < 8) l → 0 ≤ k < 8 →
  has_key (foldl add_key m l) k = has_key m k || bool_decide (k ∈ l).
Proof.
  revert m. induction l as [|j l IH]; intros m Hm Hl Hk; simpl.
  { destruct (bool_decide (k ∈ [])) eqn:Hin; [|by rewrite orb_false_r].
    apply bool_decide_eq_true in Hin. by apply elem_of_nil in Hin. }
  apply Forall_cons in Hl as [Hj Hl].
  rewrite IH by (unfold add_key; by rewrite ?length_insert).
  unfold has_key, add_key. destruct (decide (k = j)) as [->|Hne].
  - rewrite list_lookup_insert_eq by lia. simpl.
    rewrite (bool_decide_eq_true_2 (j ∈ j :: l)) by (by left).
    by rewrite orb_true_r.
  - rewrite list_lookup_insert_ne by lia. f_equal.
    apply bool_decide_ext. rewrite elem_of_cons. tauto.
Qed.

Lemma filter_iff_elem {A} (P1 P2 : A → Prop)
    `{!∀ x, Decision (P1 x), !∀ x, Decision (P2 x)} (l : list A) :
  (∀ x, x ∈ l → (P1 x ↔ P2 x)) → filter P1 l = filter P2 l.
Proof.
  induction l as [|a l IH]; intros Hiff; [done|].
  rewrite !filter_cons.
  rewrite IH by (intros x Hx; apply Hiff; by right).
  destruct (decide (P1 a)) as [H1|H1], (decide (P2 a)) as [H2|H2];
    try done; exfalso; apply (Hiff a) in H1 || apply (Hiff a) in H2;
    try done; by left.
Qed.

(** Under CPython, a set of integers that are all below 8 is iterated in
    ascending order, whatever the order and the repetitions of the list it
    was built from. *)
Lemma cpython_small_sets_ascending (l : list Z)
    (Hsmall : Forall (λ k, 0 ≤ k < 8) l) :
  CPython.set_list l = filter (λ k, k ∈ l) [0; 1; 2; 3; 4; 5; 6; 7].
Proof.
  assert (Hlen : length (foldl add_key (replicate 8 false) l) = 8%nat).
  { clear Hsmall. induction l as [|k l IH] using rev_ind; [done|].
    rewrite foldl_app. simpl. unfold add_key. by rewrite length_insert. }
  unfold CPython.set_list.
  change CPython.empty with (table_of (replicate 8 false)).
  rewrite foldl_set_add_entry_small by done.
  rewrite (proj1 (tables_closed_spec _ Hlen)).
  unfold keys_of. apply filter_iff_elem.
  intros k Hk%small_keys_range.
  rewrite has_key_foldl_add_key by done.
  change (has_key (replicate 8 false) k) with
    (default false (replicate 8 false !! Z.to_nat k)).
  rewrite orb_true_iff, bool_decide_eq_true.
  split; [|by right]. intros [Hfalse|Hin]; [|done].
  destruct (replicate 8 false !! Z.to_nat k) as [b|] eqn:Hb; [|done].
  apply lookup_replicate in Hb as [-> _]. done.
Qed.

Lemma cpython_small_sets_ascending_witness :
  CPython.set_list [7; 1; 5; 1; 0; 3; 7; 2] = [0; 1; 2; 3; 5; 7].
Proof.
  rewrite (cpython_small_sets_ascending [7; 1; 5; 1; 0; 3; 7; 2]).
  - reflexivity.
  - repeat constructor; lia.
Defined.

Lemma parse_nonneg m ids_text ints :
  mapM (Py.int m) (Py.findall_digits ids_text) = Some ints →
  Forall (λ n, 0 ≤ n) ints.
Proof.
  intros Hparse. pose proof (parse_within_limit m ids_text) as Hlim.
  destruct (within_limit m ids_text); [|congruence].
  destruct Hlim as (ints' & Hints' & Hpos). congruence.
Qed.

Lemma parse_without_limit m ids_text ints :
  mapM (Py.int m) (Py.findall_digits ids_text) = Some ints →
  mapM (Py.int 0) (Py.findall_digits ids_text) = Some ints.
Proof.
  rewrite !mapM_Some. intros Hall. eapply Forall2_impl; [exact Hall|].
  intros d n. unfold Py.int.
  destruct (Py.is_empty d); [done|]. simpl.
  by destruct ((0 <? m)%nat && (m <? String.length d)%nat).
Qed.

Lemma StronglySorted_filter {A} (R : relation A) (P : A → Prop)
    `{!∀ x, Decision (P x)} (l : list A) :
  StronglySorted R l → StronglySorted R (filter P l).
Proof.
  induction 1 as [|a l Hl IH Ha]; [constructor|].
  rewrite filter_cons. destruct (decide (P a)); [|done].
  constructor; [done|].
  apply Forall_forall. intros x [_ Hx]%list_elem_of_filter.
  rewrite Forall_forall in Ha. by apply Ha.
Qed.

Lemma omap_recommendation_filter catalog (l : list Z) :
  omap (recommendation_for catalog) l
  = omap (recommendation_for catalog)
         (filter (λ i, 0 ≤ i < Z.of_nat (length catalog)) l).
Proof.
  induction l as [|i l IH]; [done|]. rewrite filter_cons. csimpl.
  destruct (decide (0 ≤ i < Z.of_nat (length catalog))) as [Hi|Hi].
  - csimpl. by rewrite IH.
  - unfold recommendation_for at 1.
    by rewrite bool_decide_eq_false_2 by done.
Qed.

(** X18: under CPython, when every integer of the reply is below 8, the
    engine returns exactly what the ascending-order selection returns: the
    in-range indices in ascending order, each once. *)
Theorem cpython_small_ids_ascending (catalog : list Assessment)
    (ids_text : string) (ints : list Z)
    (Hparse : mapM (Py.int (max_str_digits cpython))
                   (Py.findall_digits ids_text) = Some ints)
    (Hsmall : Forall (λ k, k < 8) ints) :
  select_recommendations cpython catalog ids_text
  = Ok (ascending_recommendations catalog ids_text).
Proof.
  assert (Hrange : Forall (λ k, 0 ≤ k < 8) ints).
  { pose proof (parse_nonneg _ _ _ Hparse) as Hpos.
    rewrite Forall_forall in Hpos, Hsmall. apply Forall_forall.
    intros k Hk. split; [by apply Hpos|by apply Hsmall]. }
  unfold select_recommendations, ascending_recommendations,
    ascending_unique_ids.
  rewrite Hparse, (parse_without_limit _ _ _ Hparse). simpl.
  rewrite cpython_small_sets_ascending by done. f_equal.
  set (in_catalog := λ i : Z, 0 ≤ i < Z.of_nat (length catalog)).
  set (mentioned := filter (λ k, k ∈ ints) [0; 1; 2; 3; 4; 5; 6; 7]).
  assert (Hsorted : merge_sort Z.le (first_occurrences (filter in_catalog ints))
                    = filter in_catalog mentioned).
  { apply (StronglySorted_unique Z.le).
    - apply StronglySorted_merge_sort; apply _.
    - apply StronglySorted_filter, StronglySorted_filter.
      repeat constructor; lia.
    - rewrite merge_sort_Permutation.
      apply NoDup_Permutation.
      + apply NoDup_first_occurrences.
      + apply NoDup_filter, NoDup_filter.
        refine (bool_decide_unpack _ _). by vm_compute.
      + intros k. rewrite elem_of_first_occurrences. unfold mentioned.
        rewrite !list_elem_of_filter.
        split; [|tauto]. intros [Hk Hin]. split_and!; [done..|].
        rewrite Forall_forall in Hrange.
        apply (small_keys_range k), Hrange, Hin. }
  assert (Hshort : (length mentioned ≤ 10)%nat).
  { etrans; [apply length_filter|]. simpl. lia. }
  rewrite Hsorted.
  rewrite (take_ge mentioned) by done.
  rewrite (take_ge (filter in_catalog mentioned))
    by (etrans; [apply length_filter|done]).
  apply omap_recommendation_filter.
Qed.

Lemma cpython_small_ids_ascending_witness :
  select_recommendations cpython nine_products "Take 7, then 2 and 7 again; 5"
  = Ok [product "2"; product "5"; product "7"].
Proof.
  rewrite (cpython_small_ids_ascending nine_products
             "Take 7, then 2 and 7 again; 5" [7; 2; 7; 5]).
  - by vm_compute.
  - reflexivity.
  - repeat constructor; lia.
Defined.

(** ** The order of the catalog *)




(** ** An empty cache *)

Lemma recommendation_for_nil id : recommendation_for [] id = None.
Proof.
  unfold recommendation_for. by rewrite bool_decide_eq_false_2 by (simpl; lia).
Qed.

(** X20: a fresh cache file that stores no records is served as it is,
    without scraping and without the built-in records, and the engine then
    recommends nothing whatever the oracle replies. *)
Theorem empty_cache_recommends_nothing (rt : Runtime) (w : Services)
    (cache_data : CacheEnvelope) (time_read time_write : Z) (write_ok : bool)
    (oracle : list Assessment → OracleReply)
    (Hfresh : time_read - default 0 (timestamp cache_data) < 86400)
    (Hnone : default [] (assessments cache_data) = []) :
  fetch_shl_assessments_async w (Stored cache_data) time_read time_write
    write_ok = ([], Stored cache_data)
  ∧ fetch_shl_assessments (Stored cache_data) time_read = []
  ∧ match (get_recommendations_async rt w (Stored cache_data) time_read
             time_write write_ok oracle).1 with
    | Ok result => result = []
    | Raise e => status_code e = 500
    end.
Proof.
  assert (Hread : read_cache (Stored cache_data) time_read = Some []).
  { simpl. unfold CACHE_EXPIRY. rewrite bool_decide_eq_true_2 by done.
    by rewrite Hnone. }
  unfold get_recommendations_async, fetch_shl_assessments,
    fetch_shl_assessments_async. rewrite Hread. simpl.
  split_and!; [done|done|].
  destruct (oracle []) as [ids_text|message]; simpl; [|done].
  unfold select_recommendations. destruct (mapM _ _) as [ints|]; [|done].
  induction (take 10 (set_list rt ints)) as [|i ids IH]; [done|].
  csimpl. by rewrite recommendation_for_nil.
Qed.

Lemma empty_cache_recommends_nothing_witness :
  (get_recommendations_async cpython html_only
     (Stored (mkEnvelope (Some 1000) None)) 2000 2001 true
     (λ _, OracleText "0, 1")).1 = Ok [].
Proof.
  pose proof (empty_cache_recommends_nothing cpython html_only
    (mkEnvelope (Some 1000) None) 2000 2001 true (λ _, OracleText "0, 1")
    ltac:(simpl; lia) eq_refl) as (_ & _ & Hrec).
  destruct (get_recommendations_async _ _ _ _ _ _ _).1 as [result|e] eqn:Hres.
  - by rewrite Hrec.
  - by vm_compute in Hres.
Defined.
